(** * Display ordering of dapp transfers (DappTransferInitial.tsx)

    A shallow embedding of [sortTransactions], [getTransactionCostForSorting]
    and of the amount text computed by [renderTransactionRow], together with
    the properties the specification states about them.

    Conventions of the embedding:
    - a [bigint] is a [Z];
    - a JavaScript [number] is a carrier with the operations the code applies
      to it (the [JsNumber] class), binary64 being the carrier of the
      language; statements hold for every carrier, those about the resulting
      order for costs that compare consistently ([comparable]);
    - the price table is a plain object: a key is looked up among its own
      entries first and then among the members every object inherits;
    - an exception is the [Throw] outcome;
    - arrays live in a heap and are passed by reference. *)

From stdpp Require Import gmap strings list sorting pretty.
From Stdlib Require Import ZArith QArith Lia.
From Stdlib Require Import Floats.PrimFloat Floats.SpecFloat Floats.FloatOps.

Local Open Scope Z_scope.

(** ** Numbers *)

(** How [Array.prototype.sort] reads the value returned by a comparator:
    below zero, above zero, or neither (zero and [NaN] alike). *)
Inductive sign := Negative | Zero | Positive.

#[global] Instance sign_eq_dec : EqDecision sign.
Proof. solve_decision. Defined.

(** The operations on [number] used by the code: [*], [+], [-], the sign a
    sort reads off a comparator result, and integer literals.
    [toBigNumber value decimals] stands for [toBig(value, decimals).toNumber()]
    of [util/decimals]: the number for [value] scaled down by [decimals]
    decimal places. *)
Class JsNumber (number : Type) := {
  nmul : number → number → number;
  nadd : number → number → number;
  nsub : number → number → number;
  signOf : number → sign;
  fromInteger : Z → number;
  toBigNumber : Z → Z → number;
}.

(** [a <= b] and [a < b] as the comparator of the code observes them, through
    the sign of a difference. *)
Definition nle `{JsNumber number} (a b : number) : Prop :=
  signOf (nsub a b) ≠ Positive.
Definition nlt `{JsNumber number} (a b : number) : Prop :=
  signOf (nsub a b) = Negative.

(** The numbers [costs] can be compared consistently: the two directions of
    a comparison agree and [<=] is transitive. This is what the language asks
    of a comparator for the result of a sort to be defined; [NaN] among the
    numbers breaks it. *)
Definition comparable `{JsNumber number} (costs : list number) : Prop :=
  Forall (λ a,
    Forall (λ b,
      (signOf (nsub a b) = Positive ↔ signOf (nsub b a) = Negative)
      ∧ Forall (λ c, nle a b → nle b c → nle a c) costs) costs) costs.

#[global] Instance comparable_dec `{JsNumber number} (costs : list number) :
  Decision (comparable costs).
Proof. unfold comparable, nle. apply _. Defined.

(** ** Outcomes *)

Inductive exn := TypeError.

Inductive outcome (A : Type) :=
  | Return (a : A)
  | Throw (e : exn).
Arguments Return {A} a.
Arguments Throw {A} e.

#[global] Instance outcome_ret : MRet outcome := @Return.
#[global] Instance outcome_bind : MBind outcome := λ A B f c,
  match c with
  | Return a => f a
  | Throw e => Throw e
  end.

(** ** Data model *)

(** Modelled from the spec: the payload type [ApiParsedPayload] of
    [api/types]; a payload is one of three variants, told apart by shape:
    none, a token transfer of [amount] of the token [slug], an NFT
    transfer. *)
Inductive ApiParsedPayload :=
  | PayloadNone
  | TokenTransfer (slug : string) (amount : Z)
  | NftTransfer.

(** Modelled from the spec: the guard [isTokenTransferPayload] of
    [util/ton/transfer], true of the token-transfer variant. *)
Definition isTokenTransferPayload (payload : ApiParsedPayload) : bool :=
  match payload with TokenTransfer _ _ => true | _ => false end.

(** Modelled from the spec: the guard [isNftTransferPayload] of
    [util/ton/transfer], true of the NFT-transfer variant. *)
Definition isNftTransferPayload (payload : ApiParsedPayload) : bool :=
  match payload with NftTransfer => true | _ => false end.

#[global] Instance ApiParsedPayload_eq_dec : EqDecision ApiParsedPayload.
Proof. solve_decision. Defined.

(** Modelled from the spec: the request type [ApiDappTransfer] of
    [api/types], with the fields of the spec's Transfer Request. *)
Module ApiDappTransfer.
Record t := mk {
  displayedAmount : Z;
  fullFee : Z;
  displayedToAddress : string;
  payload : ApiParsedPayload;
  isScam : bool;
}.
End ApiDappTransfer.

(** Modelled from the spec: the price entry [ApiTokenWithPrice] of
    [api/types]: [{decimals, symbol, quote: {priceUsd}}]. *)
Module ApiTokenWithPrice.
Record quote_t (number : Type) := mkQuote { priceUsd : number }.
Record t (number : Type) := mk {
  decimals : Z;
  symbol : string;
  quote : quote_t number;
}.
Arguments mkQuote {number} _.
Arguments priceUsd {number} _.
Arguments mk {number} _ _ _.
Arguments decimals {number} _.
Arguments symbol {number} _.
Arguments quote {number} _.
End ApiTokenWithPrice.

(** [interface SortedDappTransfer extends ApiDappTransfer]. *)
Module SortedDappTransfer.
Record t (number : Type) := mk {
  displayedAmount : Z;
  fullFee : Z;
  displayedToAddress : string;
  payload : ApiParsedPayload;
  isScam : bool;
  index : nat;
  sortingCost : number;
}.
Arguments mk {number} _ _ _ _ _ _ _.
Arguments displayedAmount {number} _.
Arguments fullFee {number} _.
Arguments displayedToAddress {number} _.
Arguments payload {number} _.
Arguments isScam {number} _.
Arguments index {number} _.
Arguments sortingCost {number} _.
End SortedDappTransfer.

(** The constant [TONCOIN] of [config], of which the code reads [slug],
    [decimals] and [symbol]. *)
Record NativeCoin := {
  coinSlug : string;
  coinDecimals : Z;
  coinSymbol : string;
}.

(** ** Property lookup on a plain object *)

(** The members a plain object inherits from [Object.prototype]. *)
Definition objectPrototypeMembers : list string :=
  ["constructor"; "hasOwnProperty"; "isPrototypeOf"; "propertyIsEnumerable";
   "toLocaleString"; "toString"; "valueOf"; "__proto__";
   "__defineGetter__"; "__defineSetter__"; "__lookupGetter__";
   "__lookupSetter__"].

Definition inheritsMember (key : string) : bool :=
  bool_decide (key ∈ objectPrototypeMembers).

(** What [object[key]] evaluates to: the entry the object has under [key];
    failing that, the inherited member of that name, a function or (for
    [__proto__]) the prototype, truthy and without any of the fields of an
    entry; failing that, [undefined]. *)
Inductive property (A : Type) :=
  | OwnEntry (entry : A)
  | InheritedMember
  | Undefined.
Arguments OwnEntry {A} entry.
Arguments InheritedMember {A}.
Arguments Undefined {A}.

Definition getProperty {A} (object : gmap string A) (key : string)
    : property A :=
  match object !! key with
  | Some entry => OwnEntry entry
  | None => if inheritsMember key then InheritedMember else Undefined
  end.

(** ** Cost used for sorting *)

Section Cost.
Context {number : Type} `{JsNumber number}.
Variable TONCOIN : NativeCoin.

Definition NFT_FAKE_COST_USD : number := fromInteger 1000000000.

(** [tokensBySlug[..].quote.priceUsd] throws a [TypeError] when the lookup
    gives [undefined] (no [quote] to read) and when it gives an inherited
    member (its [quote] is [undefined], with no [priceUsd] to read). *)
Definition getTransactionCostForSorting (transaction : ApiDappTransfer.t)
    (tokensBySlug : gmap string (ApiTokenWithPrice.t number))
    : outcome number :=
  let tonAmount :=
    toBigNumber (ApiDappTransfer.displayedAmount transaction
                 + ApiDappTransfer.fullFee transaction)
                (coinDecimals TONCOIN) in
  match getProperty tokensBySlug (coinSlug TONCOIN) with
  | Undefined => Throw TypeError
  | InheritedMember => Throw TypeError
  | OwnEntry ton =>
    let cost :=
      nmul (ApiTokenWithPrice.priceUsd (ApiTokenWithPrice.quote ton))
           tonAmount in
    if isTokenTransferPayload (ApiDappTransfer.payload transaction) then
      match ApiDappTransfer.payload transaction with
      | TokenTransfer slug amount =>
        match getProperty tokensBySlug slug with
        | Undefined => Return cost
        | InheritedMember => Throw TypeError
        | OwnEntry token =>
          Return (nadd cost
            (nmul (ApiTokenWithPrice.priceUsd (ApiTokenWithPrice.quote token))
                  (toBigNumber amount (ApiTokenWithPrice.decimals token))))
        end
      | _ => Return cost
      end
    else if isNftTransferPayload (ApiDappTransfer.payload transaction) then
      Return (nadd cost NFT_FAKE_COST_USD)
    else Return cost
  end.
End Cost.

(** ** Arrays and the heap *)

Definition loc := positive.

Inductive jsArray (number : Type) :=
  | RequestArray (elements : list ApiDappTransfer.t)
  | RowArray (elements : list (SortedDappTransfer.t number)).
Arguments RequestArray {number} elements.
Arguments RowArray {number} elements.

Abbreviation heap number := (gmap loc (jsArray number)).

(** A computation reads and updates the heap, and returns or throws. *)
Definition js (number A : Type) : Type :=
  heap number → outcome A * heap number.

#[global] Instance js_ret {number} : MRet (js number) :=
  λ A a h, (Return a, h).
#[global] Instance js_bind {number} : MBind (js number) :=
  λ A B f c h,
    match c h with
    | (Return a, h') => f a h'
    | (Throw e, h') => (Throw e, h')
    end.

(** *** [Array.prototype.sort]

    The sort is stable and in place. [comparefn a b] below zero puts [a]
    first, above zero puts [b] first, otherwise the two keep their order.
    The engine's algorithm is not fixed by the language; a stable insertion
    sort stands for it, and [stableSort_unique] below shows that under a
    consistent comparator no other stable result exists. *)
Section StableSort.
Context {A : Type}.
Variable cmp : A → A → sign.

Fixpoint insertSorted (x : A) (sorted : list A) : list A :=
  match sorted with
  | [] => [x]
  | y :: rest =>
    match cmp x y with
    | Positive => y :: insertSorted x rest
    | _ => x :: sorted
    end
  end.

Fixpoint stableSort (l : list A) : list A :=
  match l with
  | [] => []
  | x :: rest => insertSorted x (stableSort rest)
  end.

(** The order a stable sort must produce, for elements that carry their
    original position [key]: [a] stands before [b] when the comparator
    puts it first, or leaves the two alone and [a] came first. *)
Variable key : A → nat.
Definition precedes (a b : A) : Prop :=
  cmp a b = Negative ∨ (cmp a b = Zero ∧ (key a < key b)%nat).

(** A comparator consistent on the elements of [l]: the two directions
    agree and "not after" is transitive. *)
Definition consistentOn (l : list A) : Prop :=
  (∀ a b, a ∈ l → b ∈ l → cmp a b = Positive ↔ cmp b a = Negative)
  ∧ (∀ a b c, a ∈ l → b ∈ l → c ∈ l →
       cmp a b ≠ Positive → cmp b c ≠ Positive → cmp a c ≠ Positive).
End StableSort.

(** *** [Array.prototype.map] *)

(** The callback is applied to the elements from left to right, each with
    its position; the first exception ends the traversal. *)
Fixpoint mapCallback {A B : Type} (callback : A → nat → outcome B)
    (index : nat) (elements : list A) : outcome (list B) :=
  match elements with
  | [] => Return []
  | x :: rest =>
    y ← callback x index;
    ys ← mapCallback callback (S index) rest;
    Return (y :: ys)
  end.

Section Arrays.
Context {number : Type} `{JsNumber number}.

(** [arr.map(callback)] on an array of requests: a new array is allocated,
    [arr] is only read. (A reference to anything else does not occur in the
    typed code; it is made to throw.) *)
Definition array_map
    (callback : ApiDappTransfer.t → nat → outcome (SortedDappTransfer.t number))
    (arr : loc) : js number loc :=
  λ h,
    match h !! arr with
    | Some (RequestArray elements) =>
      match mapCallback callback 0 elements with
      | Return rows =>
        let l := fresh (dom h) in
        (Return l, <[l := RowArray rows]> h)
      | Throw e => (Throw e, h)
      end
    | _ => (Throw TypeError, h)
    end.

(** [arr.sort(comparefn)] on an array of rows: sorts [arr] itself and
    returns the same reference. *)
Definition array_sort
    (comparefn : SortedDappTransfer.t number → SortedDappTransfer.t number → number)
    (arr : loc) : js number loc :=
  λ h,
    match h !! arr with
    | Some (RowArray rows) =>
      (Return arr,
       <[arr := RowArray (stableSort (λ a b, signOf (comparefn a b)) rows)]> h)
    | _ => (Throw TypeError, h)
    end.
End Arrays.

(** ** [sortTransactions] *)

Section Sort.
Context {number : Type} `{JsNumber number}.
Variable TONCOIN : NativeCoin.

(** The callback given to [map]:
    [{...transaction, index, sortingCost: getTransactionCostForSorting(..)}]. *)
Definition toSortedRow (tokensBySlug : gmap string (ApiTokenWithPrice.t number))
    (transaction : ApiDappTransfer.t) (index : nat)
    : outcome (SortedDappTransfer.t number) :=
  sortingCost ← getTransactionCostForSorting TONCOIN transaction tokensBySlug;
  Return (SortedDappTransfer.mk
    (ApiDappTransfer.displayedAmount transaction)
    (ApiDappTransfer.fullFee transaction)
    (ApiDappTransfer.displayedToAddress transaction)
    (ApiDappTransfer.payload transaction)
    (ApiDappTransfer.isScam transaction)
    index sortingCost).

(** The comparator given to [sort]:
    [transaction1.sortingCost - transaction0.sortingCost]. *)
Definition compareRows (transaction0 transaction1 : SortedDappTransfer.t number)
    : number :=
  nsub (SortedDappTransfer.sortingCost transaction1)
       (SortedDappTransfer.sortingCost transaction0).

(** [transactions] is [undefined] ([None]) or a reference to an array. *)
Definition sortTransactions (transactions : option loc)
    (tokensBySlug : gmap string (ApiTokenWithPrice.t number))
    : js number (option loc) :=
  match transactions with
  | None => mret transactions
  | Some arr =>
    mapped ← array_map (toSortedRow tokensBySlug) arr;
    sorted ← array_sort compareRows mapped;
    mret (Some sorted)
  end.
End Sort.

(** ** Amount text of a row *)

(** Truthiness of a string and of a [bigint]. *)
Definition stringTruthy (s : string) : bool :=
  match s with EmptyString => false | String _ _ => true end.
Definition bigintTruthy (n : Z) : bool := negb (n =? 0).

Section Render.
Context {number : Type}.
Variable TONCOIN : NativeCoin.
(** [toDecimal(value, decimals?)] of [util/decimals] and
    [formatCurrency(value, currency)] of [util/formatNumber]. *)
Variable toDecimal : Z → option Z → string.
Variable formatCurrency : string → string → string.

(** The text [renderTransactionRow] puts in the amount cell of a row. The
    function is applied to the rows of the sorted array only; their token
    slugs have resolved when the costs were computed, so that
    [tokensBySlug[tokenSlug]] is an entry of the table or [undefined]. *)
Definition renderTransactionRow_amountText
    (tokensBySlug : gmap string (ApiTokenWithPrice.t number))
    (transaction : SortedDappTransfer.t number) : string :=
  let payload := SortedDappTransfer.payload transaction in
  let amountText := "" in
  let amountText :=
    if isNftTransferPayload payload then "1 NFT"
    else if isTokenTransferPayload payload then
      match payload with
      | TokenTransfer tokenSlug amount =>
        match tokensBySlug !! tokenSlug with
        | Some token =>
          formatCurrency
            (toDecimal amount (Some (ApiTokenWithPrice.decimals token)))
            (ApiTokenWithPrice.symbol token)
        | None => amountText
        end
      | _ => amountText
      end
    else amountText in
  if negb (stringTruthy amountText)
     || bigintTruthy (SortedDappTransfer.displayedAmount transaction)
  then
    let amountText :=
      if stringTruthy amountText then amountText +:+ " + " else amountText in
    amountText
      +:+ formatCurrency
           (toDecimal (SortedDappTransfer.displayedAmount transaction) None)
           (coinSymbol TONCOIN)
  else amountText.
End Render.

(** ** The valuation in the words of the specification *)

Section CostSpec.
Context {number : Type} `{JsNumber number}.
Variable TONCOIN : NativeCoin.

(** [priceUsd(nativeCoinSlug)] times the decimal value of
    [displayedAmount + fullFee]. *)
Definition nativeValuation (transaction : ApiDappTransfer.t)
    (ton : ApiTokenWithPrice.t number) : number :=
  nmul (ApiTokenWithPrice.priceUsd (ApiTokenWithPrice.quote ton))
       (toBigNumber (ApiDappTransfer.displayedAmount transaction
                     + ApiDappTransfer.fullFee transaction)
                    (coinDecimals TONCOIN)).

(** What a token payload adds: present exactly when the slug has an entry. *)
Definition tokenContribution (payload : ApiParsedPayload)
    (tokensBySlug : gmap string (ApiTokenWithPrice.t number))
    : option number :=
  match payload with
  | TokenTransfer slug amount =>
    token ← tokensBySlug !! slug;
    Some (nmul (ApiTokenWithPrice.priceUsd (ApiTokenWithPrice.quote token))
               (toBigNumber amount (ApiTokenWithPrice.decimals token)))
  | _ => None
  end.

(** What an NFT payload adds. *)
Definition nftContribution (payload : ApiParsedPayload) : option number :=
  if isNftTransferPayload payload then Some (fromInteger 1000000000)
  else None.

Definition plus (cost : number) (contribution : option number) : number :=
  match contribution with
  | Some c => nadd cost c
  | None => cost
  end.

Definition valuation (transaction : ApiDappTransfer.t)
    (ton : ApiTokenWithPrice.t number)
    (tokensBySlug : gmap string (ApiTokenWithPrice.t number)) : number :=
  plus (plus (nativeValuation transaction ton)
             (tokenContribution (ApiDappTransfer.payload transaction)
                                tokensBySlug))
       (nftContribution (ApiDappTransfer.payload transaction)).

(** The token slug of a request, if it has one, is a key of the table or
    is no name of an inherited member: the lookup gives an entry or
    [undefined]. *)
Definition slugResolves
    (tokensBySlug : gmap string (ApiTokenWithPrice.t number))
    (transaction : ApiDappTransfer.t) : bool :=
  match ApiDappTransfer.payload transaction with
  | TokenTransfer slug _ =>
    match getProperty tokensBySlug slug with
    | InheritedMember => false
    | _ => true
    end
  | _ => true
  end.

(** The row [{...request, index: i, sortingCost}] of the request at
    position [i]. *)
Definition sortedRow (ton : ApiTokenWithPrice.t number)
    (tokensBySlug : gmap string (ApiTokenWithPrice.t number))
    (i : nat) (transaction : ApiDappTransfer.t) : SortedDappTransfer.t number :=
  SortedDappTransfer.mk
    (ApiDappTransfer.displayedAmount transaction)
    (ApiDappTransfer.fullFee transaction)
    (ApiDappTransfer.displayedToAddress transaction)
    (ApiDappTransfer.payload transaction)
    (ApiDappTransfer.isScam transaction)
    i (valuation transaction ton tokensBySlug).

(** The rows in output order: the rows of all positions, sorted stably by
    the comparator of the code. *)
Definition sortedRows (ton : ApiTokenWithPrice.t number)
    (tokensBySlug : gmap string (ApiTokenWithPrice.t number))
    (transactions : list ApiDappTransfer.t)
    : list (SortedDappTransfer.t number) :=
  stableSort (λ a b, signOf (compareRows a b))
    (imap (sortedRow ton tokensBySlug) transactions).
End CostSpec.

(** ** Exact rational arithmetic as a carrier *)

Definition Qsign (q : Q) : sign :=
  match Qnum q ?= 0 with
  | Lt => Negative
  | Eq => Zero
  | Gt => Positive
  end.

#[global] Instance Q_number : JsNumber Q := {|
  nmul := Qmult;
  nadd := Qplus;
  nsub := Qminus;
  signOf := Qsign;
  fromInteger := inject_Z;
  toBigNumber value decimals := (inject_Z value / Qpower (inject_Z 10) decimals)%Q;
|}.

(** ** Binary64 as a carrier

    The numbers of the language itself: products, sums and differences round
    to nearest, a comparator result that is [NaN] counts as zero, and an
    integer scaled by a power of ten is the nearest binary64 number. *)

Definition Z2SF (z : Z) : spec_float :=
  match z with
  | Z0 => S754_zero false
  | Zpos p => S754_finite false p 0
  | Zneg p => S754_finite true p 0
  end.

Definition floatOfZ (z : Z) : float :=
  SF2Prim (binary_normalize prec emax z 0 false).

Definition floatOfDecimal (value decimals : Z) : float :=
  if decimals <? 0 then floatOfZ (value * 10 ^ (- decimals))
  else SF2Prim (SFdiv prec emax (Z2SF value) (Z2SF (10 ^ decimals))).

Definition floatSign (f : float) : sign :=
  if PrimFloat.ltb f PrimFloat.zero then Negative
  else if PrimFloat.ltb PrimFloat.zero f then Positive
  else Zero.

#[global] Instance float_number : JsNumber float := {|
  nmul := PrimFloat.mul;
  nadd := PrimFloat.add;
  nsub := PrimFloat.sub;
  signOf := floatSign;
  fromInteger := floatOfZ;
  toBigNumber := floatOfDecimal;
|}.

(** ** Sample data

    The data of the specification's scenarios, over exact rationals: a
    native coin with 9 decimals at 5 USD, a token [X] with 2 decimals at
    2 USD. *)

Definition TON : NativeCoin :=
  {| coinSlug := "toncoin"; coinDecimals := 9; coinSymbol := "TON" |}.

Definition sampleTon : ApiTokenWithPrice.t Q :=
  ApiTokenWithPrice.mk 9 "TON" (ApiTokenWithPrice.mkQuote (inject_Z 5)).

Definition samplePrices : gmap string (ApiTokenWithPrice.t Q) :=
  <["toncoin" := sampleTon]>
  (<["X" := ApiTokenWithPrice.mk 2 "X" (ApiTokenWithPrice.mkQuote (inject_Z 2))]> ∅).

(** A table without the native entry. *)
Definition pricesWithoutNative : gmap string (ApiTokenWithPrice.t Q) :=
  <["X" := ApiTokenWithPrice.mk 2 "X" (ApiTokenWithPrice.mkQuote (inject_Z 2))]> ∅.

(** 100 coins, no payload. *)
Definition nativeTransfer : ApiDappTransfer.t :=
  ApiDappTransfer.mk 100000000000 10000000 "EQnative" PayloadNone false.
(** An NFT, nothing displayed. *)
Definition nftTransfer : ApiDappTransfer.t :=
  ApiDappTransfer.mk 0 10000000 "EQnft" NftTransfer false.
(** 50.00 of token [X] and 0.01 coin. *)
Definition tokenTransfer : ApiDappTransfer.t :=
  ApiDappTransfer.mk 10000000 0 "EQtoken" (TokenTransfer "X" 5000) false.
(** A token the table does not know. *)
Definition unknownTokenTransfer : ApiDappTransfer.t :=
  ApiDappTransfer.mk 0 10000000 "EQunknown" (TokenTransfer "Y" 7) false.

(** One coin, no payload. *)
Definition oneCoinTransfer : ApiDappTransfer.t :=
  ApiDappTransfer.mk 1000000000 10000000 "EQone" PayloadNone false.
(** Nothing but a fee. *)
Definition zeroTransfer : ApiDappTransfer.t :=
  ApiDappTransfer.mk 0 10000000 "EQzero" PayloadNone false.

Definition sampleTransfers : list ApiDappTransfer.t :=
  [nativeTransfer; tokenTransfer; nftTransfer; unknownTokenTransfer; tokenTransfer].

Definition sampleHeap : heap Q :=
  <[1%positive := RequestArray sampleTransfers]>
  (<[2%positive := RequestArray []]> ∅).

(** The same prices and requests in binary64. *)
Definition floatTon : ApiTokenWithPrice.t float :=
  ApiTokenWithPrice.mk 9 "TON" (ApiTokenWithPrice.mkQuote (floatOfZ 5)).

Definition floatPrices : gmap string (ApiTokenWithPrice.t float) :=
  <["toncoin" := floatTon]>
  (<["X" := ApiTokenWithPrice.mk 2 "X" (ApiTokenWithPrice.mkQuote (floatOfZ 2))]> ∅).

Definition floatHeap : heap float :=
  <[1%positive := RequestArray sampleTransfers]> ∅.

(** Two token requests whose slugs are no keys of the tables and name
    members every object inherits. *)
Definition toStringTransfer : ApiDappTransfer.t :=
  ApiDappTransfer.mk 0 10000000 "EQtoString" (TokenTransfer "toString" 7) false.
Definition constructorTransfer : ApiDappTransfer.t :=
  ApiDappTransfer.mk 0 10000000 "EQconstructor"
    (TokenTransfer "constructor" 7) false.

(** A table in which the token [N] has a price that is not a number, and
    three requests: one coin (5 USD), 0.01 of [N], an NFT. *)
Definition nanPrices : gmap string (ApiTokenWithPrice.t float) :=
  <["toncoin" := floatTon]>
  (<["N" := ApiTokenWithPrice.mk 2 "N" (ApiTokenWithPrice.mkQuote nan)]> ∅).

Definition fiveUsdTransfer : ApiDappTransfer.t :=
  ApiDappTransfer.mk 1000000000 0 "EQfive" PayloadNone false.
Definition nanTokenTransfer : ApiDappTransfer.t :=
  ApiDappTransfer.mk 0 0 "EQnan" (TokenTransfer "N" 1) false.

Definition nanTransfers : list ApiDappTransfer.t :=
  [fiveUsdTransfer; nanTokenTransfer; nftTransfer].

Definition nanHeap : heap float :=
  <[1%positive := RequestArray nanTransfers]> ∅.







(** A table with the native coin at 1e308 USD, and a request of 100 coins
    with a token the table does not know. *)
Definition hugeTon : ApiTokenWithPrice.t float :=
  ApiTokenWithPrice.mk 9 "TON"
    (ApiTokenWithPrice.mkQuote (floatOfDecimal (10 ^ 308) 0)).

Definition hugePrices : gmap string (ApiTokenWithPrice.t float) :=
  <["toncoin" := hugeTon]> ∅.

Definition unknownTokenBigTransfer : ApiDappTransfer.t :=
  ApiDappTransfer.mk 100000000000 0 "EQbig" (TokenTransfer "Y" 7) false.

(** The rows a call leaves in the array it returns. *)
Definition outputRows {number : Type}
    (result : outcome (option loc) * heap number)
    : list (SortedDappTransfer.t number) :=
  match result with
  | (Return (Some out), h) =>
    match h !! out with
    | Some (RowArray rows) => rows
    | _ => []
    end
  | _ => []
  end.

(** A heap with one array of one request. *)
Definition singleHeap : heap Q :=
  {[ 1%positive := RequestArray [tokenTransfer] ]}.

(** The indices of the rows a call leaves in the array it returns. *)
Definition outputIndices {number : Type}
    (result : outcome (option loc) * heap number) : option (list nat) :=
  match result with
  | (Return (Some out), h) =>
    match h !! out with
    | Some (RowArray rows) => Some (SortedDappTransfer.index <$> rows)
    | _ => None
    end
  | _ => None
  end.

(** Stand-ins for [toDecimal] and [formatCurrency]: the value in scientific
    notation, followed by the symbol. *)
Definition sampleToDecimal (value : Z) (decimals : option Z) : string :=
  pretty value +:+ "e-" +:+ pretty (default 9 decimals).
Definition sampleFormatCurrency (value currency : string) : string :=
  value +:+ " " +:+ currency.

(** ** The rows on screen *)

(** The actions of [getActions()] the component dispatches. *)
Inductive DappAction :=
  | showDappTransfer (transactionIdx : nat)
  | submitDappTransferConfirm.

(** What a row element built by [renderTransactionRow] holds besides fixed
    markup: its [key], the action its [onClick] dispatches, the alternative
    text of the scam image when the image is there, whether the amount and
    the address carry the scam style, and the two texts. *)
Record TransactionRow := {
  rowKey : nat;
  rowOnClick : DappAction;
  rowScamImage : option string;
  rowAmountScam : bool;
  rowAmountText : string;
  rowAddressScam : bool;
  rowAddressText : string;
}.

(** What the component shows between the header and the buttons: the
    [DappTransfer] element of one request ([undefined] when the array has
    no first element), or the list of rows (nothing when there is no sorted
    array). *)
Inductive TransferContent :=
  | DappTransferElement (transaction : option ApiDappTransfer.t)
  | TransactionListElement (rows : option (list TransactionRow)).

Section Rows.
Context {number : Type} `{JsNumber number}.
Variable TONCOIN : NativeCoin.
Variable toDecimal : Z → option Z → string.
Variable formatCurrency : string → string → string.
(** [lang(key, params)] of [hooks/useLang] and [shortenAddress(address)] of
    [util/shortenAddress]. *)
Variable lang : string → list (string * string) → string.
Variable shortenAddress : string → string.

Definition renderTransactionRow
    (tokensBySlug : gmap string (ApiTokenWithPrice.t number))
    (transaction : SortedDappTransfer.t number) : TransactionRow :=
  {| rowKey := SortedDappTransfer.index transaction;
     rowOnClick := showDappTransfer (SortedDappTransfer.index transaction);
     rowScamImage :=
       if SortedDappTransfer.isScam transaction then Some (lang "Scam" [])
       else None;
     rowAmountScam := SortedDappTransfer.isScam transaction;
     rowAmountText :=
       renderTransactionRow_amountText TONCOIN toDecimal formatCurrency
         tokensBySlug transaction;
     rowAddressScam := SortedDappTransfer.isScam transaction;
     rowAddressText :=
       lang "$transaction_to"
         [("address",
           shortenAddress (SortedDappTransfer.displayedToAddress transaction))];
  |}.

(** [sortedTransactions?.map(renderTransactionRow)]: the row elements, in
    the order of the sorted array; nothing when there is no array. *)
Definition renderTransactionRows
    (tokensBySlug : gmap string (ApiTokenWithPrice.t number))
    (sortedTransactions : option loc)
    : js number (option (list TransactionRow)) :=
  λ h,
    match sortedTransactions with
    | None => (Return None, h)
    | Some arr =>
      match h !! arr with
      | Some (RowArray rows) =>
        (Return (Some (renderTransactionRow tokensBySlug <$> rows)), h)
      | _ => (Throw TypeError, h)
      end
    end.

(** [transactions?.length === 1] *)
Definition isSingleTransaction (transactions : option loc) : js number bool :=
  λ h,
    match transactions with
    | None => (Return false, h)
    | Some arr =>
      match h !! arr with
      | Some (RequestArray elements) =>
        (Return (bool_decide (length elements = 1%nat)), h)
      | _ => (Throw TypeError, h)
      end
    end.

(** [renderTransaction]: the [DappTransfer] element of
    [renderingTransactions![0]]. *)
Definition renderTransaction (renderingTransactions : loc)
    : js number TransferContent :=
  λ h,
    match h !! renderingTransactions with
    | Some (RequestArray elements) =>
      (Return (DappTransferElement (elements !! 0%nat)), h)
    | _ => (Throw TypeError, h)
    end.

(** [renderTransactions], as far as the rows go. *)
Definition renderTransactions
    (tokensBySlug : gmap string (ApiTokenWithPrice.t number))
    (sortedTransactions : option loc) : js number TransferContent :=
  rows ← renderTransactionRows tokensBySlug sortedTransactions;
  mret (TransactionListElement rows).

(** The body of the component, on a render in which [useMemo] computes:
    what it shows between the header and the buttons, or nothing when
    there is nothing to render. [transactions] is the property of that
    name; [renderingTransactions] is what the hook
    [useCurrentOrPrev(transactions, true)] returned, the hook being defined
    elsewhere. The requests are sorted whether or not the list is shown. *)
Definition DappTransferInitial
    (tokensBySlug : gmap string (ApiTokenWithPrice.t number))
    (transactions renderingTransactions : option loc)
    : js number (option TransferContent) :=
  single ← isSingleTransaction transactions;
  sortedTransactions ←
    sortTransactions TONCOIN renderingTransactions tokensBySlug;
  match renderingTransactions with
  | None => mret None
  | Some rendering =>
    content ←
      (if single : bool then renderTransaction rendering
       else renderTransactions tokensBySlug sortedTransactions);
    mret (Some content)
  end.
End Rows.

(** The request a row was made from: the row without [index] and
    [sortingCost]. *)
Definition rowRequest {number : Type} (row : SortedDappTransfer.t number)
    : ApiDappTransfer.t :=
  ApiDappTransfer.mk
    (SortedDappTransfer.displayedAmount row)
    (SortedDappTransfer.fullFee row)
    (SortedDappTransfer.displayedToAddress row)
    (SortedDappTransfer.payload row)
    (SortedDappTransfer.isScam row).

(** ** The build platform (util/getBuildPlatform.ts) *)

(** The flags imported from [config] and [util/windowEnvironment], as the
    environment the two functions read. *)
Record Flags := {
  IS_AIR_APP : bool;
  IS_ANDROID_DIRECT : bool;
  IS_CAPACITOR : bool;
  IS_EXTENSION : bool;
  IS_FIREFOX_EXTENSION : bool;
  IS_OPERA_EXTENSION : bool;
  IS_PACKAGED_ELECTRON : bool;
  IS_ANDROID : bool;
  IS_ELECTRON : bool;
  IS_IOS : bool;
}.

(** [type BuildPlatform]. *)
Inductive BuildPlatform :=
  | Web
  | Extension
  | FirefoxExtension
  | OperaExtension
  | Electron
  | Android
  | AndroidAir
  | AndroidAirDirect
  | AndroidDirect
  | Ios
  | IosAir.

#[global] Instance BuildPlatform_eq_dec : EqDecision BuildPlatform.
Proof. solve_decision. Defined.

(** The string each platform is in the source. *)
Definition buildPlatformName (platform : BuildPlatform) : string :=
  match platform with
  | Web => "web"
  | Extension => "extension"
  | FirefoxExtension => "firefox-extension"
  | OperaExtension => "opera-extension"
  | Electron => "electron"
  | Android => "android"
  | AndroidAir => "android-air"
  | AndroidAirDirect => "android-air-direct"
  | AndroidDirect => "android-direct"
  | Ios => "ios"
  | IosAir => "ios-air"
  end.

(** Statements that may return: [if (condition) body], a block of
    statements run in order until one returns, and a block followed by a
    final [return]. *)
Definition ifReturn {A} (condition : bool) (body : option A) : option A :=
  if condition then body else None.

Fixpoint statements {A} (block : list (option A)) : option A :=
  match block with
  | [] => None
  | statement :: rest =>
    match statement with
    | Some result => Some result
    | None => statements rest
    end
  end.

Definition orReturn {A} (block : option A) (last : A) : A :=
  match block with
  | Some result => result
  | None => last
  end.

Definition getBuildPlatform (flags : Flags) : BuildPlatform :=
  orReturn
    (statements [
       ifReturn (IS_FIREFOX_EXTENSION flags) (Some FirefoxExtension);
       ifReturn (IS_OPERA_EXTENSION flags) (Some OperaExtension);
       ifReturn (IS_EXTENSION flags) (Some Extension);
       ifReturn (IS_CAPACITOR flags) (statements [
         ifReturn (IS_AIR_APP flags) (statements [
           ifReturn (IS_IOS flags) (Some IosAir);
           ifReturn (IS_ANDROID_DIRECT flags) (Some AndroidAirDirect);
           ifReturn (IS_ANDROID flags) (Some AndroidAir)]);
         ifReturn (IS_ANDROID_DIRECT flags) (Some AndroidDirect);
         ifReturn (IS_ANDROID flags) (Some Android);
         ifReturn (IS_IOS flags) (Some Ios)]);
       ifReturn (IS_ELECTRON flags) (Some Electron)])
    Web.

(** The object [getFlagsValue] returns. *)
Record FlagsValue := {
  value_IS_ANDROID_DIRECT : bool;
  value_IS_CAPACITOR : bool;
  value_IS_EXTENSION : bool;
  value_IS_FIREFOX_EXTENSION : bool;
  value_IS_PACKAGED_ELECTRON : bool;
  value_IS_AIR_APP : bool;
  value_IS_ELECTRON : bool;
  value_IS_OPERA_EXTENSION : bool;
}.

Definition getFlagsValue (flags : Flags) : FlagsValue :=
  {| value_IS_ANDROID_DIRECT := IS_ANDROID_DIRECT flags;
     value_IS_CAPACITOR := IS_CAPACITOR flags;
     value_IS_EXTENSION := IS_EXTENSION flags;
     value_IS_FIREFOX_EXTENSION := IS_FIREFOX_EXTENSION flags;
     value_IS_PACKAGED_ELECTRON := IS_PACKAGED_ELECTRON flags;
     value_IS_AIR_APP := IS_AIR_APP flags;
     value_IS_ELECTRON := IS_ELECTRON flags;
     value_IS_OPERA_EXTENSION := IS_OPERA_EXTENSION flags;
  |}.

(** None of the three extension flags is set. *)
Definition noExtensionFlag (flags : Flags) : Prop :=
  IS_FIREFOX_EXTENSION flags = false
  ∧ IS_OPERA_EXTENSION flags = false
  ∧ IS_EXTENSION flags = false.

(** None of the three device flags is set. *)
Definition noDeviceFlag (flags : Flags) : Prop :=
  IS_IOS flags = false
  ∧ IS_ANDROID flags = false
  ∧ IS_ANDROID_DIRECT flags = false.

(** Sample environments: an iOS air build, a packaged desktop build, and
    two Capacitor builds that differ in their device only. *)
Definition iosAirFlags : Flags :=
  {| IS_AIR_APP := true; IS_ANDROID_DIRECT := false; IS_CAPACITOR := true;
     IS_EXTENSION := false; IS_FIREFOX_EXTENSION := false;
     IS_OPERA_EXTENSION := false; IS_PACKAGED_ELECTRON := false;
     IS_ANDROID := false; IS_ELECTRON := false; IS_IOS := true |}.

Definition electronFlags : Flags :=
  {| IS_AIR_APP := false; IS_ANDROID_DIRECT := false; IS_CAPACITOR := false;
     IS_EXTENSION := false; IS_FIREFOX_EXTENSION := false;
     IS_OPERA_EXTENSION := false; IS_PACKAGED_ELECTRON := true;
     IS_ANDROID := false; IS_ELECTRON := true; IS_IOS := false |}.

Definition androidFlags : Flags :=
  {| IS_AIR_APP := false; IS_ANDROID_DIRECT := false; IS_CAPACITOR := true;
     IS_EXTENSION := false; IS_FIREFOX_EXTENSION := false;
     IS_OPERA_EXTENSION := false; IS_PACKAGED_ELECTRON := false;
     IS_ANDROID := true; IS_ELECTRON := false; IS_IOS := false |}.

Definition iosFlags : Flags :=
  {| IS_AIR_APP := false; IS_ANDROID_DIRECT := false; IS_CAPACITOR := true;
     IS_EXTENSION := false; IS_FIREFOX_EXTENSION := false;
     IS_OPERA_EXTENSION := false; IS_PACKAGED_ELECTRON := false;
     IS_ANDROID := false; IS_ELECTRON := false; IS_IOS := true |}.

(** Requests that already come in descending order of cost, in binary64. *)
Definition descendingTransfers : list ApiDappTransfer.t :=
  [nftTransfer; nativeTransfer; zeroTransfer].

Definition descendingHeap : heap float :=
  <[1%positive := RequestArray descendingTransfers]> ∅.

(** Stand-ins for [lang] and [shortenAddress]. *)
Definition sampleLang (key : string) (params : list (string * string)) : string :=
  match params with
  | [] => key
  | (_, value) :: _ => key +:+ " " +:+ value
  end.
Definition sampleShortenAddress (address : string) : string := address.

(** * Properties *)

(** ** The sort *)

(** Membership in a list written with [::]. *)
Ltac solve_elem :=
  repeat first
    [ assumption | apply list_elem_of_here | apply list_elem_of_further ].

Section StableSortFacts.
Context {A : Type}.
Variable cmp : A → A → sign.
Variable key : A → nat.

Lemma insertSorted_Permutation x l : insertSorted cmp x l ≡ₚ x :: l.
Proof.
  induction l as [|y l IH]; simpl; [done|].
  destruct (cmp x y); try done.
  rewrite IH. apply Permutation_swap.
Qed.

Lemma stableSort_Permutation l : stableSort cmp l ≡ₚ l.
Proof.
  induction l as [|x l IH]; simpl; [done|].
  by rewrite insertSorted_Permutation, IH.
Qed.

Lemma stableSort_length l : length (stableSort cmp l) = length l.
Proof. by rewrite stableSort_Permutation. Qed.

Lemma consistentOn_subseteq l l' :
  l' ⊆ l → consistentOn cmp l → consistentOn cmp l'.
Proof.
  intros Hsub [Hanti Htrans]. split.
  - intros a b Ha Hb. apply Hanti; by apply Hsub.
  - intros a b c Ha Hb Hc. apply Htrans; by apply Hsub.
Qed.

Lemma precedes_not_after a b : precedes cmp key a b → cmp a b ≠ Positive.
Proof. intros [E|[E _]]; rewrite E; discriminate. Qed.

Lemma not_after_precedes a b :
  cmp a b ≠ Positive → (key a < key b)%nat → precedes cmp key a b.
Proof.
  intros Hab Hk. unfold precedes.
  destruct (cmp a b); [by left|by right|done].
Qed.

Lemma precedes_asym l a b :
  consistentOn cmp l → a ∈ l → b ∈ l →
  precedes cmp key a b → precedes cmp key b a → False.
Proof.
  intros [Hanti _] Ha Hb [E1|[E1 K1]] [E2|[E2 K2]].
  - apply (Hanti a b Ha Hb) in E2. congruence.
  - apply (Hanti b a Hb Ha) in E1. congruence.
  - apply (Hanti a b Ha Hb) in E2. congruence.
  - lia.
Qed.

Lemma insertSorted_sorted x l :
  consistentOn cmp (x :: l) →
  Forall (λ y, (key x < key y)%nat) l →
  StronglySorted (precedes cmp key) l →
  StronglySorted (precedes cmp key) (insertSorted cmp x l).
Proof.
  induction l as [|y l IH]; simpl; intros Hcons Hkey Hs.
  { repeat constructor. }
  apply Forall_cons in Hkey as [Hy Hl].
  apply StronglySorted_cons in Hs as [Hall Hs].
  pose proof Hcons as [Hanti Htrans].
  assert (Hlater : cmp x y ≠ Positive → Forall (precedes cmp key x) l).
  { intros Hxy. apply Forall_forall. intros z Hz.
    rewrite Forall_forall in Hall, Hl.
    apply not_after_precedes; [|by apply Hl].
    apply (Htrans x y z); [solve_elem..|done|].
    by apply precedes_not_after, Hall. }
  destruct (cmp x y) eqn:E.
  - constructor; [by constructor|].
    constructor; [by left|]. by apply Hlater.
  - constructor; [by constructor|].
    constructor; [by right|]. by apply Hlater.
  - constructor.
    + apply IH; [|done..].
      apply (consistentOn_subseteq (x :: y :: l)); [|done].
      intros z Hz. apply elem_of_cons in Hz as [->|Hz]; solve_elem.
    + rewrite insertSorted_Permutation. constructor; [|done].
      left. apply Hanti; [solve_elem..|done].
Qed.

Lemma stableSort_sorted l :
  consistentOn cmp l →
  StronglySorted (λ a b, (key a < key b)%nat) l →
  StronglySorted (precedes cmp key) (stableSort cmp l).
Proof.
  induction l as [|x l IH]; simpl; intros Hcons Hs; [constructor|].
  apply StronglySorted_cons in Hs as [Hall Hs].
  apply insertSorted_sorted.
  - apply (consistentOn_subseteq (x :: l)); [|done].
    intros z. by rewrite stableSort_Permutation.
  - by rewrite stableSort_Permutation.
  - apply IH; [|done].
    apply (consistentOn_subseteq (x :: l)); [|done].
    intros z Hz. solve_elem.
Qed.

(** No other arrangement of the elements is a stable sort of [l]: the
    choice of algorithm does not show in the result. *)
Lemma stableSort_unique l l' :
  consistentOn cmp l →
  StronglySorted (λ a b, (key a < key b)%nat) l →
  l' ≡ₚ l →
  StronglySorted (precedes cmp key) l' →
  l' = stableSort cmp l.
Proof.
  intros Hcons Hl Hp Hs.
  eapply StronglySorted_unique_strong; [|exact Hs|by apply stableSort_sorted|].
  - intros a b Ha Hb Hab Hba.
    rewrite Hp in Ha. rewrite stableSort_Permutation in Hb.
    destruct (precedes_asym l a b Hcons Ha Hb Hab Hba).
  - by rewrite stableSort_Permutation.
Qed.
End StableSortFacts.

(** Elements of a strongly sorted list are related position by position. *)
Lemma StronglySorted_lookup {A} (R : relation A) (l : list A) p q a b :
  StronglySorted R l → (p < q)%nat → l !! p = Some a → l !! q = Some b → R a b.
Proof.
  intros Hs. revert p q. induction Hs as [|x l Hs IH Hall]; intros p q Hpq Ha Hb.
  { by rewrite lookup_nil in Ha. }
  destruct q as [|q]; [lia|]. simpl in Hb.
  destruct p as [|p]; simpl in Ha.
  - simplify_eq. rewrite Forall_forall in Hall. apply Hall.
    by eapply list_elem_of_lookup_2.
  - apply (IH p q); [lia|done..].
Qed.

(** ** Running the code *)

Section Run.
Context {number : Type} `{JsNumber number}.
Variable TONCOIN : NativeCoin.
Implicit Types (h : heap number) (arr : loc).
Implicit Types (tokensBySlug : gmap string (ApiTokenWithPrice.t number)).
Implicit Types (ton : ApiTokenWithPrice.t number).
Implicit Types (transaction : ApiDappTransfer.t).
Implicit Types (transactions : list ApiDappTransfer.t).

Lemma getProperty_own {A} (object : gmap string A) key entry :
  object !! key = Some entry → getProperty object key = OwnEntry entry.
Proof. intros Hkey. unfold getProperty. by rewrite Hkey. Qed.

Lemma getProperty_not_own {A} (object : gmap string A) key :
  object !! key = None →
  getProperty object key
  = if inheritsMember key then InheritedMember else Undefined.
Proof. intros Hkey. unfold getProperty. by rewrite Hkey. Qed.

Lemma slugResolves_inherited tokensBySlug transaction slug amount :
  ApiDappTransfer.payload transaction = TokenTransfer slug amount →
  tokensBySlug !! slug = None →
  inheritsMember slug = true →
  slugResolves tokensBySlug transaction = false.
Proof.
  intros Hp Hslug Hmember. unfold slugResolves.
  by rewrite Hp, (getProperty_not_own _ _ Hslug), Hmember.
Qed.

(** With the native entry present and the token slug resolving, the cost is
    returned and is the valuation. *)
Lemma cost_present tokensBySlug ton transaction :
  tokensBySlug !! coinSlug TONCOIN = Some ton →
  slugResolves tokensBySlug transaction = true →
  getTransactionCostForSorting TONCOIN transaction tokensBySlug
  = Return (valuation TONCOIN transaction ton tokensBySlug).
Proof.
  intros Hton Hres.
  unfold getTransactionCostForSorting, valuation.
  rewrite (getProperty_own _ _ _ Hton).
  unfold nativeValuation, tokenContribution, nftContribution.
  unfold slugResolves in Hres.
  destruct (ApiDappTransfer.payload transaction) as [|slug amount|]; simpl;
    [done| |done].
  unfold getProperty in *.
  destruct (tokensBySlug !! slug); simpl; [done|].
  by destruct (inheritsMember slug).
Qed.

(** Without an entry of its own for the native coin, the computation
    throws. *)
Lemma cost_missing tokensBySlug transaction :
  tokensBySlug !! coinSlug TONCOIN = None →
  getTransactionCostForSorting TONCOIN transaction tokensBySlug
  = Throw TypeError.
Proof.
  intros Hton. unfold getTransactionCostForSorting.
  rewrite (getProperty_not_own _ _ Hton).
  by destruct (inheritsMember _).
Qed.

(** A token slug that is no key of the table and names an inherited member
    makes the computation throw. *)
Lemma cost_unresolved tokensBySlug transaction :
  slugResolves tokensBySlug transaction = false →
  getTransactionCostForSorting TONCOIN transaction tokensBySlug
  = Throw TypeError.
Proof.
  intros Hres. unfold getTransactionCostForSorting.
  destruct (getProperty tokensBySlug (coinSlug TONCOIN)); [|done..].
  unfold slugResolves in Hres.
  destruct (ApiDappTransfer.payload transaction) as [|slug amount|];
    [done| |done].
  simpl. by destruct (getProperty tokensBySlug slug).
Qed.

(** The computation returns exactly when the native coin has an entry and
    the token slug resolves; otherwise it throws a [TypeError]. *)
Lemma cost_outcome tokensBySlug transaction :
  match tokensBySlug !! coinSlug TONCOIN with
  | Some ton =>
    if slugResolves tokensBySlug transaction
    then getTransactionCostForSorting TONCOIN transaction tokensBySlug
         = Return (valuation TONCOIN transaction ton tokensBySlug)
    else getTransactionCostForSorting TONCOIN transaction tokensBySlug
         = Throw TypeError
  | None =>
    getTransactionCostForSorting TONCOIN transaction tokensBySlug
    = Throw TypeError
  end.
Proof.
  destruct (tokensBySlug !! coinSlug TONCOIN) as [ton|] eqn:Hton.
  - destruct (slugResolves tokensBySlug transaction) eqn:Hres.
    + by apply cost_present.
    + by apply cost_unresolved.
  - by apply cost_missing.
Qed.

(** When the computation throws. *)
Lemma cost_throws_iff tokensBySlug transaction :
  getTransactionCostForSorting TONCOIN transaction tokensBySlug
  = Throw TypeError
  ↔ tokensBySlug !! coinSlug TONCOIN = None
    ∨ ∃ slug amount,
        ApiDappTransfer.payload transaction = TokenTransfer slug amount
        ∧ tokensBySlug !! slug = None
        ∧ inheritsMember slug = true.
Proof.
  split.
  - intros Hthrow.
    pose proof (cost_outcome tokensBySlug transaction) as Hcost.
    destruct (tokensBySlug !! coinSlug TONCOIN) as [ton|]; [|by left].
    right.
    destruct (slugResolves tokensBySlug transaction) eqn:Hres;
      [congruence|].
    unfold slugResolves, getProperty in Hres.
    destruct (ApiDappTransfer.payload transaction) as [|slug amount|];
      [done| |done].
    exists slug, amount.
    destruct (tokensBySlug !! slug); [done|].
    by destruct (inheritsMember slug).
  - intros [Hton|(slug & amount & Hp & Hslug & Hmember)].
    + by apply cost_missing.
    + apply cost_unresolved. by eapply slugResolves_inherited.
Qed.

Lemma toSortedRow_present tokensBySlug ton transaction i :
  tokensBySlug !! coinSlug TONCOIN = Some ton →
  slugResolves tokensBySlug transaction = true →
  toSortedRow TONCOIN tokensBySlug transaction i
  = Return (sortedRow TONCOIN ton tokensBySlug i transaction).
Proof.
  intros Hton Hres. unfold toSortedRow.
  by rewrite (cost_present _ ton).
Qed.

Lemma mapCallback_present tokensBySlug ton transactions i :
  tokensBySlug !! coinSlug TONCOIN = Some ton →
  (∀ transaction, transaction ∈ transactions →
     slugResolves tokensBySlug transaction = true) →
  mapCallback (toSortedRow TONCOIN tokensBySlug) i transactions
  = Return (imap (λ k, sortedRow TONCOIN ton tokensBySlug (i + k)) transactions).
Proof.
  intros Hton. revert i.
  induction transactions as [|t ts IH]; intros i Hres; simpl; [done|].
  rewrite (toSortedRow_present _ ton), IH; [|intros; apply Hres; solve_elem|done|].
  - simpl. rewrite Nat.add_0_r. do 2 f_equal.
    apply imap_ext. intros k x _. simpl. f_equal. lia.
  - apply Hres. solve_elem.
Qed.

(** As soon as the cost of one request throws, the traversal throws. *)
Lemma mapCallback_throws tokensBySlug transactions i :
  Exists (λ transaction,
            getTransactionCostForSorting TONCOIN transaction tokensBySlug
            = Throw TypeError) transactions →
  mapCallback (toSortedRow TONCOIN tokensBySlug) i transactions
  = Throw TypeError.
Proof.
  intros Hex. revert i.
  induction Hex as [t ts Ht|t ts Hex IH]; intros i; simpl.
  - unfold toSortedRow. by rewrite Ht.
  - destruct (toSortedRow TONCOIN tokensBySlug t i) as [row|[]]; [|done].
    unfold mbind at 1. unfold outcome_bind at 1. by rewrite IH.
Qed.

Lemma mapCallback_missing tokensBySlug transaction transactions i :
  tokensBySlug !! coinSlug TONCOIN = None →
  mapCallback (toSortedRow TONCOIN tokensBySlug) i (transaction :: transactions)
  = Throw TypeError.
Proof.
  intros Hton. apply mapCallback_throws. left. by apply cost_missing.
Qed.

Lemma fresh_unused h : h !! fresh (dom h) = None.
Proof. apply not_elem_of_dom, is_fresh. Qed.

(** With the native entry present and every token slug resolving, the call
    allocates one array, holding the sorted rows, and returns it. *)
Lemma sortTransactions_present h arr transactions tokensBySlug ton :
  h !! arr = Some (RequestArray transactions) →
  tokensBySlug !! coinSlug TONCOIN = Some ton →
  (∀ transaction, transaction ∈ transactions →
     slugResolves tokensBySlug transaction = true) →
  ∃ out,
    h !! out = None ∧
    sortTransactions TONCOIN (Some arr) tokensBySlug h
    = (Return (Some out),
       <[out := RowArray (sortedRows TONCOIN ton tokensBySlug transactions)]> h).
Proof.
  intros Harr Hton Hres. exists (fresh (dom h)). split; [apply fresh_unused|].
  unfold sortTransactions, mbind, js_bind, array_map.
  rewrite Harr, (mapCallback_present _ ton) by done.
  unfold array_sort. rewrite lookup_insert_eq.
  by rewrite insert_insert_eq.
Qed.

(** When the cost of a request throws, the call throws and the heap is as
    it was. *)
Lemma sortTransactions_throws h arr transactions tokensBySlug :
  h !! arr = Some (RequestArray transactions) →
  Exists (λ transaction,
            getTransactionCostForSorting TONCOIN transaction tokensBySlug
            = Throw TypeError) transactions →
  sortTransactions TONCOIN (Some arr) tokensBySlug h = (Throw TypeError, h).
Proof.
  intros Harr Hex.
  unfold sortTransactions, mbind, js_bind, array_map.
  by rewrite Harr, mapCallback_throws.
Qed.

Lemma sortTransactions_missing h arr transaction transactions tokensBySlug :
  h !! arr = Some (RequestArray (transaction :: transactions)) →
  tokensBySlug !! coinSlug TONCOIN = None →
  sortTransactions TONCOIN (Some arr) tokensBySlug h = (Throw TypeError, h).
Proof.
  intros Harr Hton.
  apply (sortTransactions_throws h arr (transaction :: transactions)); [done|].
  left. by apply cost_missing.
Qed.

Lemma sortTransactions_nil h arr tokensBySlug :
  h !! arr = Some (RequestArray []) →
  sortTransactions TONCOIN (Some arr) tokensBySlug h
  = (Return (Some (fresh (dom h))), <[fresh (dom h) := RowArray []]> h).
Proof.
  intros Harr.
  unfold sortTransactions, mbind, js_bind, array_map. rewrite Harr. simpl.
  unfold array_sort. rewrite lookup_insert_eq. simpl.
  by rewrite insert_insert_eq.
Qed.

(** A call that returns has found the array empty, or the native entry
    present and every token slug resolving. *)
Lemma sortTransactions_inversion h arr transactions tokensBySlug out h' :
  h !! arr = Some (RequestArray transactions) →
  sortTransactions TONCOIN (Some arr) tokensBySlug h
  = (Return (Some out), h') →
  h !! out = None
  ∧ ((transactions = [] ∧ h' = <[out := RowArray []]> h)
     ∨ ∃ ton,
         tokensBySlug !! coinSlug TONCOIN = Some ton
         ∧ (∀ transaction, transaction ∈ transactions →
              slugResolves tokensBySlug transaction = true)
         ∧ h' = <[out := RowArray
                           (sortedRows TONCOIN ton tokensBySlug transactions)]> h).
Proof.
  intros Harr Hrun.
  destruct transactions as [|t ts].
  { rewrite (sortTransactions_nil h arr tokensBySlug Harr) in Hrun.
    simplify_eq. split; [apply fresh_unused|by left]. }
  destruct (tokensBySlug !! coinSlug TONCOIN) as [ton|] eqn:Hton.
  2: { rewrite (sortTransactions_missing h arr t ts tokensBySlug Harr Hton)
         in Hrun. congruence. }
  destruct (decide (Forall (λ transaction,
                      slugResolves tokensBySlug transaction = true) (t :: ts)))
    as [Hres|Hres].
  - rewrite Forall_forall in Hres.
    destruct (sortTransactions_present h arr (t :: ts) tokensBySlug ton
                Harr Hton Hres) as (out' & Hout & Hrun').
    rewrite Hrun' in Hrun. simplify_eq.
    split; [done|]. right. by exists ton.
  - apply not_Forall_Exists in Hres; [|apply _].
    rewrite (sortTransactions_throws h arr (t :: ts)) in Hrun;
      [congruence|done|].
    eapply Exists_impl; [exact Hres|].
    intros transaction Hfalse. apply cost_unresolved.
    by apply not_true_is_false.
Qed.

(** *** The rows *)

Lemma sortedRows_Permutation ton tokensBySlug transactions :
  sortedRows TONCOIN ton tokensBySlug transactions
  ≡ₚ imap (sortedRow TONCOIN ton tokensBySlug) transactions.
Proof. apply stableSort_Permutation. Qed.

Lemma sortedRows_length ton tokensBySlug transactions :
  length (sortedRows TONCOIN ton tokensBySlug transactions)
  = length transactions.
Proof. by rewrite sortedRows_Permutation, length_imap. Qed.

Lemma sortedRows_lookup ton tokensBySlug transactions p row :
  sortedRows TONCOIN ton tokensBySlug transactions !! p = Some row →
  ∃ transaction,
    transactions !! SortedDappTransfer.index row = Some transaction ∧
    row = sortedRow TONCOIN ton tokensBySlug
            (SortedDappTransfer.index row) transaction.
Proof.
  intros Hp. apply list_elem_of_lookup_2 in Hp.
  rewrite sortedRows_Permutation in Hp.
  apply list_elem_of_lookup_1 in Hp as [i Hi].
  apply list_lookup_imap_Some in Hi as (t & Ht & ->). simpl. eauto.
Qed.

Lemma sortedRows_index ton tokensBySlug transactions :
  SortedDappTransfer.index <$> sortedRows TONCOIN ton tokensBySlug transactions
  ≡ₚ seq 0 (length transactions).
Proof.
  rewrite sortedRows_Permutation, fmap_imap.
  rewrite (imap_ext _ (λ k _, k)) by done.
  by rewrite imap_seq_0, list_fmap_id.
Qed.

Lemma imap_sortedRow_increasing ton tokensBySlug transactions i :
  StronglySorted
    (λ a b, (SortedDappTransfer.index a < SortedDappTransfer.index b)%nat)
    (imap (λ k, sortedRow TONCOIN ton tokensBySlug (i + k)) transactions).
Proof.
  revert i. induction transactions as [|t ts IH]; intros i; [constructor|].
  rewrite imap_cons. constructor.
  - rewrite (imap_ext _ (λ k, sortedRow TONCOIN ton tokensBySlug (S i + k))).
    + apply IH.
    + intros k x _. simpl. f_equal. lia.
  - apply Forall_forall. intros row Hrow.
    apply list_elem_of_lookup_1 in Hrow as [k Hk].
    apply list_lookup_imap_Some in Hk as (x & _ & ->). simpl. lia.
Qed.
End Run.

(** ** The order of the rows *)

Section Order.
Context {number : Type} `{JsNumber number}.
Variable TONCOIN : NativeCoin.
Implicit Types (a b c : SortedDappTransfer.t number).
Implicit Types (rows : list (SortedDappTransfer.t number)).
Implicit Types (costs : list number).

Lemma comparable_spec costs :
  comparable costs ↔
  (∀ x y, x ∈ costs → y ∈ costs →
     signOf (nsub x y) = Positive ↔ signOf (nsub y x) = Negative)
  ∧ (∀ x y z, x ∈ costs → y ∈ costs → z ∈ costs →
       nle x y → nle y z → nle x z).
Proof.
  unfold comparable. rewrite Forall_forall. split.
  - intros Hall. split.
    + intros x y Hx Hy. specialize (Hall x Hx). rewrite Forall_forall in Hall.
      by destruct (Hall y Hy).
    + intros x y z Hx Hy Hz. specialize (Hall x Hx).
      rewrite Forall_forall in Hall. destruct (Hall y Hy) as [_ Htrans].
      rewrite Forall_forall in Htrans. by apply Htrans.
  - intros [Hanti Htrans] x Hx. apply Forall_forall. intros y Hy. split.
    + by apply Hanti.
    + apply Forall_forall. intros z Hz. by apply Htrans.
Qed.

Lemma comparable_diag costs (x : number) :
  comparable costs → x ∈ costs → signOf (nsub x x) = Zero.
Proof.
  intros [Hanti _]%comparable_spec Hx.
  destruct (signOf (nsub x x)) eqn:E; [|done|].
  - pose proof (proj2 (Hanti x x Hx Hx) E). congruence.
  - pose proof (proj1 (Hanti x x Hx Hx) E). congruence.
Qed.

(** Comparable costs make the comparator of the code consistent. *)
Lemma compareRows_consistentOn rows :
  comparable (SortedDappTransfer.sortingCost <$> rows) →
  consistentOn (λ a b, signOf (compareRows a b)) rows.
Proof.
  intros [Hanti Htrans]%comparable_spec.
  assert (Hin : ∀ a, a ∈ rows →
            SortedDappTransfer.sortingCost a
            ∈ SortedDappTransfer.sortingCost <$> rows).
  { intros a Ha. by apply list_elem_of_fmap_2. }
  split.
  - intros a b Ha Hb. apply Hanti; by apply Hin.
  - intros a b c Ha Hb Hc Hab Hbc.
    apply (Htrans (SortedDappTransfer.sortingCost c)
                  (SortedDappTransfer.sortingCost b)
                  (SortedDappTransfer.sortingCost a)); auto.
Qed.

Lemma imap_sortedRow_costs ton tokensBySlug transactions :
  SortedDappTransfer.sortingCost
    <$> imap (sortedRow TONCOIN ton tokensBySlug) transactions
  = (λ transaction, valuation TONCOIN transaction ton tokensBySlug)
    <$> transactions.
Proof. rewrite fmap_imap, <- imap_const. by apply imap_ext. Qed.

Lemma sortedRows_sorted ton tokensBySlug transactions :
  comparable ((λ transaction, valuation TONCOIN transaction ton tokensBySlug)
              <$> transactions) →
  StronglySorted
    (precedes (λ a b, signOf (compareRows a b)) SortedDappTransfer.index)
    (sortedRows TONCOIN ton tokensBySlug transactions).
Proof.
  intros Hcosts. apply stableSort_sorted.
  - apply compareRows_consistentOn. by rewrite imap_sortedRow_costs.
  - apply (imap_sortedRow_increasing TONCOIN ton tokensBySlug transactions 0).
Qed.

(** The output order is the only stable descending order of the rows. *)
Lemma sortedRows_unique ton tokensBySlug transactions rows :
  comparable ((λ transaction, valuation TONCOIN transaction ton tokensBySlug)
              <$> transactions) →
  rows ≡ₚ imap (sortedRow TONCOIN ton tokensBySlug) transactions →
  StronglySorted
    (precedes (λ a b, signOf (compareRows a b)) SortedDappTransfer.index) rows →
  rows = sortedRows TONCOIN ton tokensBySlug transactions.
Proof.
  intros Hcosts Hperm Hsorted.
  apply (stableSort_unique _ SortedDappTransfer.index);
    [| |exact Hperm|exact Hsorted].
  - apply compareRows_consistentOn. by rewrite imap_sortedRow_costs.
  - apply (imap_sortedRow_increasing TONCOIN ton tokensBySlug transactions 0).
Qed.

Lemma comparable_nlt_not_nle costs (x y : number) :
  comparable costs → x ∈ costs → y ∈ costs → nlt x y → nle y x → False.
Proof.
  intros [Hanti _]%comparable_spec Hx Hy Hlt Hle.
  unfold nlt, nle in *. by apply Hle, (Hanti y x Hy Hx).
Qed.

(** The costs of the rows are the costs of the requests. *)
Lemma sortedRows_cost ton tokensBySlug transactions p row :
  sortedRows TONCOIN ton tokensBySlug transactions !! p = Some row →
  SortedDappTransfer.sortingCost row
  ∈ (λ transaction, valuation TONCOIN transaction ton tokensBySlug)
    <$> transactions.
Proof.
  intros Hp.
  destruct (sortedRows_lookup TONCOIN _ _ _ _ _ Hp) as (t & Ht & ->).
  simpl. apply list_elem_of_fmap_2'
    with (x := t); [by eapply list_elem_of_lookup_2|done].
Qed.
End Order.

(** ** The valuation *)

Section CostProperties.
Context {number : Type} `{JsNumber number}.
Variable TONCOIN : NativeCoin.
Implicit Types (tokensBySlug : gmap string (ApiTokenWithPrice.t number)).
Implicit Types (ton token : ApiTokenWithPrice.t number).
Implicit Types (transaction : ApiDappTransfer.t).

(** C1. With the native entry present and the token slug resolving, the
    cost is the native valuation, plus the token term exactly when the
    payload is a token transfer whose slug has an entry, plus the constant
    1,000,000,000 exactly when the payload is an NFT transfer; a request
    without payload has the native valuation alone. A token slug that does
    not resolve, being no key of the table but the name of a member every
    object inherits, makes the computation throw instead of leaving the
    cost at the native valuation. *)
Theorem sortingCost_formula tokensBySlug ton transaction :
  tokensBySlug !! coinSlug TONCOIN = Some ton →
  let payload := ApiDappTransfer.payload transaction in
  (if slugResolves tokensBySlug transaction
   then getTransactionCostForSorting TONCOIN transaction tokensBySlug
        = Return (plus (plus (nativeValuation TONCOIN transaction ton)
                             (tokenContribution payload tokensBySlug))
                       (nftContribution payload))
   else getTransactionCostForSorting TONCOIN transaction tokensBySlug
        = Throw TypeError)
  ∧ (∀ c, tokenContribution payload tokensBySlug = Some c ↔
       ∃ slug amount token,
         payload = TokenTransfer slug amount ∧
         tokensBySlug !! slug = Some token ∧
         c = nmul (ApiTokenWithPrice.priceUsd (ApiTokenWithPrice.quote token))
                  (toBigNumber amount (ApiTokenWithPrice.decimals token)))
  ∧ (∀ c, nftContribution payload = Some c ↔
       payload = NftTransfer ∧ c = fromInteger 1000000000)
  ∧ (payload = PayloadNone →
       getTransactionCostForSorting TONCOIN transaction tokensBySlug
       = Return (nativeValuation TONCOIN transaction ton)).
Proof.
  intros Hton payload. split; [|split; [|split]].
  - pose proof (cost_outcome TONCOIN tokensBySlug transaction) as Hcost.
    by rewrite Hton in Hcost.
  - intros c. unfold tokenContribution. split.
    + destruct payload as [|slug amount|]; [done| |done].
      destruct (tokensBySlug !! slug) as [token|] eqn:E; simpl; [|done].
      intros [= <-]. by exists slug, amount, token.
    + intros (slug & amount & token & -> & E & ->). by rewrite E.
  - intros c. unfold nftContribution. split.
    + destruct payload; simpl; [done..|]. by intros [= <-].
    + by intros [-> ->].
  - intros Hp. rewrite (cost_present TONCOIN _ ton); [|done|].
    + unfold valuation. fold payload. by rewrite Hp.
    + unfold slugResolves. fold payload. by rewrite Hp.
Qed.

(** A token payload whose slug has no entry and names no inherited member
    does not make the computation fail: the cost is returned and is the
    native valuation. *)
Lemma cost_unknown_token tokensBySlug ton transaction slug amount :
  tokensBySlug !! coinSlug TONCOIN = Some ton →
  ApiDappTransfer.payload transaction = TokenTransfer slug amount →
  tokensBySlug !! slug = None →
  inheritsMember slug = false →
  getTransactionCostForSorting TONCOIN transaction tokensBySlug
  = Return (nativeValuation TONCOIN transaction ton).
Proof.
  intros Hton Hp Hslug Hmember. rewrite (cost_present TONCOIN _ ton); [|done|].
  - unfold valuation, tokenContribution, nftContribution.
    by rewrite Hp, Hslug.
  - unfold slugResolves.
    by rewrite Hp, (getProperty_not_own _ _ Hslug), Hmember.
Qed.

(** A token payload whose slug has no entry and names an inherited member
    makes the computation throw, native entry or not. *)
Lemma cost_inherited_slug tokensBySlug transaction slug amount :
  ApiDappTransfer.payload transaction = TokenTransfer slug amount →
  tokensBySlug !! slug = None →
  inheritsMember slug = true →
  getTransactionCostForSorting TONCOIN transaction tokensBySlug
  = Throw TypeError.
Proof.
  intros Hp Hslug Hmember. apply cost_unresolved.
  by apply (slugResolves_inherited _ _ slug amount).
Qed.
(** C7. Without an entry of its own for the native coin the computation
    throws a [TypeError] for every request and returns no valuation. With
    the entry present it still throws for a token payload whose slug is no
    key of the table but names a member every object inherits, and for no
    other request; every other request has its valuation returned. *)
Theorem sortingCost_failure tokensBySlug transaction :
  (tokensBySlug !! coinSlug TONCOIN = None →
   getTransactionCostForSorting TONCOIN transaction tokensBySlug
   = Throw TypeError)
  ∧ (∀ ton,
       tokensBySlug !! coinSlug TONCOIN = Some ton →
       (getTransactionCostForSorting TONCOIN transaction tokensBySlug
        = Throw TypeError
        ↔ ∃ slug amount,
            ApiDappTransfer.payload transaction = TokenTransfer slug amount
            ∧ tokensBySlug !! slug = None
            ∧ inheritsMember slug = true)
       ∧ (getTransactionCostForSorting TONCOIN transaction tokensBySlug
          ≠ Throw TypeError →
          getTransactionCostForSorting TONCOIN transaction tokensBySlug
          = Return (valuation TONCOIN transaction ton tokensBySlug))).
Proof.
  split; [apply cost_missing|]. intros ton Hton. split.
  - rewrite cost_throws_iff. split; [|by right].
    intros [Hnone|Hslug]; [congruence|done].
  - intros Hreturns.
    pose proof (cost_outcome TONCOIN tokensBySlug transaction) as Hcost.
    rewrite Hton in Hcost.
    by destruct (slugResolves tokensBySlug transaction).
Qed.
End CostProperties.

(** C6. In binary64: a token payload whose slug is no key of the table and
    names no inherited member does not make the computation fail; the cost
    is returned, is exactly the native valuation, and is finite when the
    native valuation is. *)
Theorem sortingCost_unknown_token (TONCOIN : NativeCoin)
    (tokensBySlug : gmap string (ApiTokenWithPrice.t float))
    (ton : ApiTokenWithPrice.t float) (transaction : ApiDappTransfer.t)
    (slug : string) (amount : Z) :
  tokensBySlug !! coinSlug TONCOIN = Some ton →
  ApiDappTransfer.payload transaction = TokenTransfer slug amount →
  tokensBySlug !! slug = None →
  inheritsMember slug = false →
  getTransactionCostForSorting TONCOIN transaction tokensBySlug
  = Return (nativeValuation TONCOIN transaction ton)
  ∧ (is_finite (nativeValuation TONCOIN transaction ton) = true →
     ∃ cost,
       getTransactionCostForSorting TONCOIN transaction tokensBySlug
       = Return cost
       ∧ is_finite cost = true).
Proof.
  intros Hton Hp Hslug Hmember.
  pose proof (cost_unknown_token TONCOIN tokensBySlug ton transaction slug
                amount Hton Hp Hslug Hmember) as Hcost.
  split; [exact Hcost|]. intros Hfinite. by eexists.
Qed.

(** ** [sortTransactions] *)

Section SortProperties.
Context {number : Type} `{JsNumber number}.
Variable TONCOIN : NativeCoin.
Implicit Types (h : heap number) (arr out : loc).
Implicit Types (tokensBySlug : gmap string (ApiTokenWithPrice.t number)).
Implicit Types (ton : ApiTokenWithPrice.t number).
Implicit Types (transactions : list ApiDappTransfer.t).
Implicit Types (rows : list (SortedDappTransfer.t number)).

(** C5. On [undefined] the result is [undefined], nothing is thrown and
    the heap is as before; on an empty array the result is a new, empty
    array. *)
Theorem sortTransactions_absent_or_empty h tokensBySlug :
  sortTransactions TONCOIN None tokensBySlug h = (Return None, h)
  ∧ (∀ arr,
       h !! arr = Some (RequestArray []) →
       ∃ out,
         h !! out = None ∧
         sortTransactions TONCOIN (Some arr) tokensBySlug h
         = (Return (Some out), <[out := RowArray []]> h)).
Proof.
  split; [done|]. intros arr Harr.
  exists (fresh (dom h)). split; [apply fresh_unused|].
  unfold sortTransactions, mbind, js_bind, array_map. rewrite Harr. simpl.
  unfold array_sort. rewrite lookup_insert_eq. simpl.
  by rewrite insert_insert_eq.
Qed.

(** C3. A call on an array returns when the native coin has an entry and
    every token slug resolves; and whenever a call returns, the output has
    one row for each request, the index of an output row is the position,
    in the input, of the request the row was made from, and no two output
    rows have the same index. *)
Theorem sortTransactions_index h arr transactions tokensBySlug :
  h !! arr = Some (RequestArray transactions) →
  (∀ ton,
     tokensBySlug !! coinSlug TONCOIN = Some ton →
     (∀ transaction, transaction ∈ transactions →
        slugResolves tokensBySlug transaction = true) →
     ∃ out h',
       sortTransactions TONCOIN (Some arr) tokensBySlug h
       = (Return (Some out), h'))
  ∧ (∀ out h',
       sortTransactions TONCOIN (Some arr) tokensBySlug h
       = (Return (Some out), h') →
       ∃ rows,
         h' !! out = Some (RowArray rows) ∧
         length rows = length transactions ∧
         (∀ p row, rows !! p = Some row →
            ∃ transaction,
              transactions !! SortedDappTransfer.index row = Some transaction ∧
              toSortedRow TONCOIN tokensBySlug transaction
                (SortedDappTransfer.index row) = Return row) ∧
         NoDup (SortedDappTransfer.index <$> rows)).
Proof.
  intros Harr. split.
  { intros ton Hton Hres.
    destruct (sortTransactions_present TONCOIN h arr transactions tokensBySlug
                ton Harr Hton Hres) as (out & _ & Hrun).
    by eexists out, _. }
  intros out h' Hrun.
  destruct (sortTransactions_inversion TONCOIN h arr transactions tokensBySlug
              out h' Harr Hrun)
    as [Hout [[-> ->]|(ton & Hton & Hres & ->)]].
  { exists []. split; [apply lookup_insert_eq|]. split; [done|].
    split; [by intros p row ?|constructor]. }
  eexists. split; [apply lookup_insert_eq|].
  split; [apply sortedRows_length|]. split.
  - intros p row Hp.
    destruct (sortedRows_lookup TONCOIN _ _ _ _ _ Hp) as (t & Ht & Hrow).
    exists t. split; [done|].
    rewrite (toSortedRow_present TONCOIN _ ton), <- Hrow; [done..|].
    apply Hres. by eapply list_elem_of_lookup_2.
  - rewrite sortedRows_index. apply NoDup_seq.
Qed.

(** C9. A call on an array returns when the native coin has an entry and
    every token slug resolves; and whenever a call returns, the output has
    one row for each request, every output row has the fields of its source
    request unchanged, with [index] and [sortingCost] added; the input
    array and every other array that existed before the call are as they
    were, the rows being in an array of their own. *)
Theorem sortTransactions_frame h arr transactions tokensBySlug :
  h !! arr = Some (RequestArray transactions) →
  (∀ ton,
     tokensBySlug !! coinSlug TONCOIN = Some ton →
     (∀ transaction, transaction ∈ transactions →
        slugResolves tokensBySlug transaction = true) →
     ∃ out h',
       sortTransactions TONCOIN (Some arr) tokensBySlug h
       = (Return (Some out), h'))
  ∧ (∀ out h',
       sortTransactions TONCOIN (Some arr) tokensBySlug h
       = (Return (Some out), h') →
       ∃ rows,
         h' !! out = Some (RowArray rows) ∧
         length rows = length transactions ∧
         (∀ p row, rows !! p = Some row →
            ∃ transaction,
              transactions !! SortedDappTransfer.index row = Some transaction ∧
              SortedDappTransfer.displayedAmount row
              = ApiDappTransfer.displayedAmount transaction ∧
              SortedDappTransfer.fullFee row
              = ApiDappTransfer.fullFee transaction ∧
              SortedDappTransfer.displayedToAddress row
              = ApiDappTransfer.displayedToAddress transaction ∧
              SortedDappTransfer.payload row
              = ApiDappTransfer.payload transaction ∧
              SortedDappTransfer.isScam row
              = ApiDappTransfer.isScam transaction ∧
              row = SortedDappTransfer.mk
                      (ApiDappTransfer.displayedAmount transaction)
                      (ApiDappTransfer.fullFee transaction)
                      (ApiDappTransfer.displayedToAddress transaction)
                      (ApiDappTransfer.payload transaction)
                      (ApiDappTransfer.isScam transaction)
                      (SortedDappTransfer.index row)
                      (SortedDappTransfer.sortingCost row)) ∧
         h !! out = None ∧
         h' !! arr = Some (RequestArray transactions) ∧
         (∀ l, l ≠ out → h' !! l = h !! l)).
Proof.
  intros Harr. split.
  { intros ton Hton Hres.
    destruct (sortTransactions_present TONCOIN h arr transactions tokensBySlug
                ton Harr Hton Hres) as (out & _ & Hrun).
    by eexists out, _. }
  intros out h' Hrun.
  destruct (sortTransactions_inversion TONCOIN h arr transactions tokensBySlug
              out h' Harr Hrun)
    as [Hout [[-> ->]|(ton & Hton & Hres & ->)]].
  { exists []. split; [apply lookup_insert_eq|]. split; [done|].
    split; [by intros p row ?|]. split; [done|]. split.
    - rewrite lookup_insert_ne; [done|]. intros ->. congruence.
    - intros l Hl. by rewrite lookup_insert_ne. }
  eexists. split; [apply lookup_insert_eq|].
  split; [apply sortedRows_length|].
  split; [|split; [done|split]].
  - intros p row Hp.
    destruct (sortedRows_lookup TONCOIN _ _ _ _ _ Hp) as (t & Ht & Hrow).
    exists t. split; [done|]. by rewrite Hrow.
  - rewrite lookup_insert_ne; [done|]. intros ->. congruence.
  - intros l Hl. by rewrite lookup_insert_ne.
Qed.

(** C4. When the native coin has an entry, every token slug resolves and
    the costs of the requests compare consistently (which a [NaN] among
    differing costs prevents), the call returns and the output holds one row
    for each request, made by the callback from the request at its index, in
    descending order of
    [sortingCost]: a later row never costs more than an earlier one; and
    rows whose costs compare equal, in particular rows of equal cost, stand
    in the order of their requests in the input. *)
Theorem sortTransactions_descending_stable
    h arr transactions tokensBySlug ton :
  h !! arr = Some (RequestArray transactions) →
  tokensBySlug !! coinSlug TONCOIN = Some ton →
  (∀ transaction, transaction ∈ transactions →
     slugResolves tokensBySlug transaction = true) →
  comparable ((λ transaction, valuation TONCOIN transaction ton tokensBySlug)
              <$> transactions) →
  ∃ out rows h',
    sortTransactions TONCOIN (Some arr) tokensBySlug h
    = (Return (Some out), h') ∧
    h' !! out = Some (RowArray rows) ∧
    length rows = length transactions ∧
    NoDup (SortedDappTransfer.index <$> rows) ∧
    (∀ p row, rows !! p = Some row →
       ∃ transaction,
         transactions !! SortedDappTransfer.index row = Some transaction ∧
         toSortedRow TONCOIN tokensBySlug transaction
           (SortedDappTransfer.index row) = Return row) ∧
    ∀ p q earlier later,
      (p < q)%nat → rows !! p = Some earlier → rows !! q = Some later →
      nle (SortedDappTransfer.sortingCost later)
          (SortedDappTransfer.sortingCost earlier) ∧
      (signOf (nsub (SortedDappTransfer.sortingCost later)
                    (SortedDappTransfer.sortingCost earlier)) = Zero →
       (SortedDappTransfer.index earlier < SortedDappTransfer.index later)%nat) ∧
      (SortedDappTransfer.sortingCost later
       = SortedDappTransfer.sortingCost earlier →
       (SortedDappTransfer.index earlier < SortedDappTransfer.index later)%nat).
Proof.
  intros Harr Hton Hres Hcosts.
  destruct (sortTransactions_present TONCOIN h arr transactions tokensBySlug
              ton Harr Hton Hres) as (out & Hout & Hrun).
  eexists out, _, _. split; [exact Hrun|].
  split; [apply lookup_insert_eq|].
  split; [apply sortedRows_length|].
  split; [rewrite sortedRows_index; apply NoDup_seq|].
  split.
  { intros p row Hp.
    destruct (sortedRows_lookup TONCOIN _ _ _ _ _ Hp) as (t & Ht & Hrow).
    exists t. split; [done|].
    rewrite (toSortedRow_present TONCOIN _ ton), <- Hrow; [done..|].
    apply Hres. by eapply list_elem_of_lookup_2. }
  intros p q earlier later Hpq Hp Hq.
  pose proof (StronglySorted_lookup _ _ p q earlier later
                (sortedRows_sorted TONCOIN ton tokensBySlug transactions Hcosts)
                Hpq Hp Hq) as Hpre.
  assert (Htie :
    signOf (nsub (SortedDappTransfer.sortingCost later)
                 (SortedDappTransfer.sortingCost earlier)) = Zero →
    (SortedDappTransfer.index earlier < SortedDappTransfer.index later)%nat).
  { intros Hz. destruct Hpre as [Hneg|[_ Hidx]]; [|done].
    unfold compareRows in Hneg. congruence. }
  split; [|split; [done|]].
  - by apply precedes_not_after in Hpre.
  - intros Heq. apply Htie. rewrite Heq.
    apply (comparable_diag _ _ Hcosts).
    by eapply sortedRows_cost.
Qed.

End SortProperties.

(** ** The amount text *)



Section RenderProperties.
Context {number : Type}.
Variable TONCOIN : NativeCoin.
Variable toDecimal : Z → option Z → string.
Variable formatCurrency : string → string → string.
Implicit Types (tokensBySlug : gmap string (ApiTokenWithPrice.t number)).
Implicit Types (transaction : SortedDappTransfer.t number).


End RenderProperties.


(** * The sample data, run *)

(** Every token slug of the sample requests resolves. *)
Lemma sampleTransfers_resolve transaction :
  transaction ∈ sampleTransfers →
  slugResolves samplePrices transaction = true.
Proof.
  revert transaction. apply Forall_forall, (bool_decide_unpack _).
  vm_compute. exact I.
Qed.

Lemma floatTransfers_resolve transaction :
  transaction ∈ sampleTransfers →
  slugResolves floatPrices transaction = true.
Proof.
  revert transaction. apply Forall_forall, (bool_decide_unpack _).
  vm_compute. exact I.
Qed.

(** The native coin has an entry and the slug ["toString"] has none; the
    lookup finds the member every object inherits under that name, and
    reading its price throws. *)
Lemma sortingCost_formula_witness :
  floatPrices !! coinSlug TON = Some floatTon
  ∧ ApiDappTransfer.payload toStringTransfer = TokenTransfer "toString" 7
  ∧ floatPrices !! "toString" = None
  ∧ getTransactionCostForSorting TON toStringTransfer floatPrices
    = Throw TypeError.
Proof.
  split; [reflexivity|]. split; [reflexivity|]. split; [reflexivity|].
  exact (proj1 (sortingCost_formula TON floatPrices floatTon toStringTransfer
                  eq_refl)).
Defined.

(** Without an entry for the native coin the computation throws; with the
    entry it throws for the token slug ["constructor"]. *)
Lemma sortingCost_failure_witness :
  getTransactionCostForSorting TON nativeTransfer pricesWithoutNative
  = Throw TypeError
  ∧ floatPrices !! coinSlug TON = Some floatTon
  ∧ getTransactionCostForSorting TON constructorTransfer floatPrices
    = Throw TypeError.
Proof.
  split; [|split; [reflexivity|]].
  - apply (proj1 (sortingCost_failure TON pricesWithoutNative nativeTransfer)).
    reflexivity.
  - apply (proj2 (sortingCost_failure TON floatPrices constructorTransfer)
             floatTon eq_refl).
    exists "constructor", 7. repeat split; reflexivity.
Defined.

(** The cost of a request with an unknown token is the native
    valuation, and that need not be finite: 100 coins at 1e308 USD. *)
Lemma sortingCost_unknown_token_infinite :
  hugePrices !! coinSlug TON = Some hugeTon
  ∧ ApiDappTransfer.payload unknownTokenBigTransfer = TokenTransfer "Y" 7
  ∧ hugePrices !! "Y" = None
  ∧ getTransactionCostForSorting TON unknownTokenBigTransfer hugePrices
    = Return infinity
  ∧ is_finite infinity = false.
Proof. by vm_compute. Qed.

Lemma sortingCost_unknown_token_witness :
  getTransactionCostForSorting TON unknownTokenTransfer floatPrices
  = Return (nativeValuation TON unknownTokenTransfer floatTon)
  ∧ ∃ cost,
      getTransactionCostForSorting TON unknownTokenTransfer floatPrices
      = Return cost
      ∧ is_finite cost = true.
Proof.
  destruct (sortingCost_unknown_token TON floatPrices floatTon
              unknownTokenTransfer "Y" 7 eq_refl eq_refl eq_refl eq_refl)
    as [Hcost Hfinite].
  split; [exact Hcost|]. apply Hfinite. by vm_compute.
Defined.

Lemma sortTransactions_absent_or_empty_witness :
  sortTransactions TON None pricesWithoutNative sampleHeap
  = (Return None, sampleHeap)
  ∧ ∃ out,
      sampleHeap !! out = None ∧
      sortTransactions TON (Some 2%positive) pricesWithoutNative sampleHeap
      = (Return (Some out), <[out := RowArray []]> sampleHeap).
Proof.
  destruct (sortTransactions_absent_or_empty TON sampleHeap pricesWithoutNative)
    as [Habsent Hempty].
  split; [exact Habsent|]. apply Hempty. reflexivity.
Defined.

Lemma sortTransactions_index_witness :
  ∃ out rows h',
    sortTransactions TON (Some 1%positive) samplePrices sampleHeap
    = (Return (Some out), h') ∧
    h' !! out = Some (RowArray rows) ∧
    length rows = 5%nat ∧
    NoDup (SortedDappTransfer.index <$> rows).
Proof.
  destruct (sortTransactions_index TON sampleHeap 1%positive sampleTransfers
              samplePrices eq_refl) as [Hreturns Hrows].
  destruct (Hreturns sampleTon eq_refl sampleTransfers_resolve)
    as (out & h' & Hrun).
  destruct (Hrows out h' Hrun) as (rows & Hout & Hlen & _ & Hnodup).
  exists out, rows, h'. repeat split; assumption.
Defined.

Lemma sortTransactions_frame_witness :
  ∃ out h',
    sortTransactions TON (Some 1%positive) samplePrices sampleHeap
    = (Return (Some out), h') ∧
    sampleHeap !! out = None ∧
    h' !! 1%positive = Some (RequestArray sampleTransfers).
Proof.
  destruct (sortTransactions_frame TON sampleHeap 1%positive sampleTransfers
              samplePrices eq_refl) as [Hreturns Hrows].
  destruct (Hreturns sampleTon eq_refl sampleTransfers_resolve)
    as (out & h' & Hrun).
  destruct (Hrows out h' Hrun) as (rows & _ & _ & _ & Hfresh & Harr & _).
  exists out, h'. repeat split; assumption.
Defined.

(** In binary64, with a token whose price is not a number: the rows
    come out in the order of the input, and the last one, the NFT, costs
    more than the first. The comparator calls the second row equal to both
    of the others. *)
Lemma sortTransactions_descending_counterexample :
  outputIndices (sortTransactions TON (Some 1%positive) nanPrices nanHeap)
  = Some [0; 1; 2]%nat
  ∧ ∃ earlier between later,
      outputRows (sortTransactions TON (Some 1%positive) nanPrices nanHeap)
      = [earlier; between; later]
      ∧ signOf (nsub (SortedDappTransfer.sortingCost later)
                     (SortedDappTransfer.sortingCost earlier)) = Positive
      ∧ signOf (nsub (SortedDappTransfer.sortingCost between)
                     (SortedDappTransfer.sortingCost earlier)) = Zero
      ∧ signOf (nsub (SortedDappTransfer.sortingCost later)
                     (SortedDappTransfer.sortingCost between)) = Zero.
Proof. split; [by vm_compute|]. eexists _, _, _. by vm_compute. Qed.

(** In binary64 the costs of the sample requests are comparable, and the
    rows come out in descending order. *)
Lemma sortTransactions_descending_stable_witness :
  ∃ out rows h',
    sortTransactions TON (Some 1%positive) floatPrices floatHeap
    = (Return (Some out), h') ∧
    h' !! out = Some (RowArray rows) ∧
    length rows = 5%nat ∧
    ∀ p q earlier later,
      (p < q)%nat → rows !! p = Some earlier → rows !! q = Some later →
      nle (SortedDappTransfer.sortingCost later)
          (SortedDappTransfer.sortingCost earlier).
Proof.
  assert (Hcosts :
    comparable ((λ transaction, valuation TON transaction floatTon floatPrices)
                <$> sampleTransfers)).
  { apply (bool_decide_unpack _). vm_compute. exact I. }
  destruct (sortTransactions_descending_stable TON floatHeap 1%positive
              sampleTransfers floatPrices floatTon eq_refl eq_refl
              floatTransfers_resolve Hcosts)
    as (out & rows & h' & Hrun & Hout & Hlen & _ & _ & Hsorted).
  exists out, rows, h'. split; [exact Hrun|]. split; [exact Hout|].
  split; [exact Hlen|].
  intros p q earlier later Hpq Hp Hq.
  exact (proj1 (Hsorted p q earlier later Hpq Hp Hq)).
Defined.



(** The NFT row of the sample is not below the floor, the other rows are
    below it. *)
Example binary64_floor :
  (λ row,
     (isNftTransferPayload (SortedDappTransfer.payload row),
      signOf (nsub (SortedDappTransfer.sortingCost row) NFT_FAKE_COST_USD)))
  <$> outputRows (sortTransactions TON (Some 1%positive) floatPrices floatHeap)
  = [(true, Positive); (false, Negative); (false, Negative);
     (false, Negative); (false, Negative)].
Proof. by vm_compute. Qed.




(** The scenarios of the specification. *)

Example scenario_A_cost :
  ∃ cost,
    getTransactionCostForSorting TON oneCoinTransfer samplePrices = Return cost
    ∧ (cost == 505 # 100)%Q.
Proof. eexists. split; [reflexivity|]. by vm_compute. Qed.

Example scenario_B_order :
  outputIndices
    (sortTransactions TON (Some 1%positive) samplePrices
       (<[1%positive := RequestArray [nativeTransfer; nftTransfer]]> ∅))
  = Some [1; 0]%nat.
Proof. by vm_compute. Qed.

Example scenario_B_text :
  renderTransactionRow_amountText TON sampleToDecimal sampleFormatCurrency
    samplePrices (sortedRow TON sampleTon samplePrices 1 nftTransfer)
  = "1 NFT".
Proof. by vm_compute. Qed.

Example scenario_C_cost :
  ∃ cost,
    getTransactionCostForSorting TON tokenTransfer samplePrices = Return cost
    ∧ (cost == 10005 # 100)%Q.
Proof. eexists. split; [reflexivity|]. by vm_compute. Qed.

(** NFT first, then by cost; the two equal token requests keep their order. *)
Example sample_order :
  outputIndices (sortTransactions TON (Some 1%positive) samplePrices sampleHeap)
  = Some [2; 0; 1; 4; 3]%nat.
Proof. by vm_compute. Qed.

Example sample_without_native :
  sortTransactions TON (Some 1%positive) pricesWithoutNative sampleHeap
  = (Throw TypeError, sampleHeap).
Proof. by vm_compute. Qed.

(** The same requests valued in binary64: 5.05, 100.05 and 1,000,000,000.05. *)
Example binary64_costs :
  getTransactionCostForSorting TON oneCoinTransfer floatPrices
  = Return (floatOfDecimal 505 2)
  ∧ getTransactionCostForSorting TON tokenTransfer floatPrices
    = Return (floatOfDecimal 10005 2)
  ∧ getTransactionCostForSorting TON nftTransfer floatPrices
    = Return (floatOfDecimal 100000000005 2).
Proof. by vm_compute. Qed.

Example binary64_order :
  outputIndices
    (sortTransactions TON (Some 1%positive) floatPrices floatHeap)
  = Some [2; 0; 1; 4; 3]%nat.
Proof. by vm_compute. Qed.

(** * Further properties *)

(** ** Outcome and heap effect of [sortTransactions] *)

(** Pairwise related positions make a list strongly sorted. *)
Lemma StronglySorted_of_lookup {A} (R : relation A) (l : list A) :
  (∀ p q a b, (p < q)%nat → l !! p = Some a → l !! q = Some b → R a b) →
  StronglySorted R l.
Proof.
  induction l as [|x l IH]; intros Hpair; [constructor|].
  constructor.
  - apply IH. intros p q a b Hpq Ha Hb.
    apply (Hpair (S p) (S q)); [lia|done..].
  - apply Forall_forall. intros y Hy.
    apply list_elem_of_lookup_1 in Hy as [q Hq].
    by apply (Hpair 0%nat (S q)); [lia|..].
Qed.

Section SortEffects.
Context {number : Type} `{JsNumber number}.
Variable TONCOIN : NativeCoin.
Implicit Types (h : heap number) (arr out : loc).
Implicit Types (tokensBySlug : gmap string (ApiTokenWithPrice.t number)).
Implicit Types (ton : ApiTokenWithPrice.t number).
Implicit Types (transactions : list ApiDappTransfer.t).
Implicit Types (rows : list (SortedDappTransfer.t number)).

Lemma cost_cases tokensBySlug transaction :
  (∃ cost, getTransactionCostForSorting TONCOIN transaction tokensBySlug
           = Return cost)
  ∨ getTransactionCostForSorting TONCOIN transaction tokensBySlug
    = Throw TypeError.
Proof.
  destruct (getTransactionCostForSorting TONCOIN transaction tokensBySlug)
    as [cost|[]]; [left; by exists cost|by right].
Qed.

Lemma costs_return_or_throw tokensBySlug transactions :
  Forall (λ transaction,
            ∃ cost, getTransactionCostForSorting TONCOIN transaction tokensBySlug
                    = Return cost) transactions
  ∨ Exists (λ transaction,
              getTransactionCostForSorting TONCOIN transaction tokensBySlug
              = Throw TypeError) transactions.
Proof.
  induction transactions as [|t ts [IH|IH]].
  - left. constructor.
  - destruct (cost_cases tokensBySlug t) as [Ht|Ht].
    + left. by constructor.
    + right. by left.
  - right. by right.
Qed.

Lemma mapCallback_returns tokensBySlug transactions i :
  Forall (λ transaction,
            ∃ cost, getTransactionCostForSorting TONCOIN transaction tokensBySlug
                    = Return cost) transactions →
  ∃ rows, mapCallback (toSortedRow TONCOIN tokensBySlug) i transactions
          = Return rows.
Proof.
  intros Hall. revert i.
  induction Hall as [|t ts [cost Ht] _ IH]; intros i; simpl; [by eexists|].
  destruct (IH (S i)) as [rows Hrows].
  rewrite Hrows. unfold toSortedRow. rewrite Ht. by eexists.
Qed.

Lemma sortTransactions_returns h arr transactions tokensBySlug :
  h !! arr = Some (RequestArray transactions) →
  Forall (λ transaction,
            ∃ cost, getTransactionCostForSorting TONCOIN transaction tokensBySlug
                    = Return cost) transactions →
  ∃ out h',
    sortTransactions TONCOIN (Some arr) tokensBySlug h
    = (Return (Some out), h') ∧ h !! out = None.
Proof.
  intros Harr Hall.
  destruct (mapCallback_returns tokensBySlug transactions 0 Hall)
    as [rows Hrows].
  exists (fresh (dom h)). eexists. split; [|apply fresh_unused].
  unfold sortTransactions, mbind, js_bind, array_map.
  rewrite Harr, Hrows. unfold array_sort. by rewrite lookup_insert_eq.
Qed.

(** X1. A call on an array returns exactly when the cost of every request
    is returned, and then the reference it returns was not in use before;
    it throws exactly when the cost of some request throws, and then it
    throws a [TypeError] and leaves the heap as it was. The cost of a
    request throws exactly when the price table has no entry of its own for
    the native coin, or the request moves a token whose slug is no key of
    the table but names a member every object inherits. *)
Theorem sortTransactions_outcome h arr transactions tokensBySlug :
  h !! arr = Some (RequestArray transactions) →
  ((∃ out h',
      sortTransactions TONCOIN (Some arr) tokensBySlug h
      = (Return (Some out), h') ∧ h !! out = None)
   ↔ Forall (λ transaction,
       ∃ cost, getTransactionCostForSorting TONCOIN transaction tokensBySlug
               = Return cost) transactions)
  ∧ (sortTransactions TONCOIN (Some arr) tokensBySlug h = (Throw TypeError, h)
     ↔ Exists (λ transaction,
         getTransactionCostForSorting TONCOIN transaction tokensBySlug
         = Throw TypeError) transactions)
  ∧ (∀ transaction,
       getTransactionCostForSorting TONCOIN transaction tokensBySlug
       = Throw TypeError
       ↔ tokensBySlug !! coinSlug TONCOIN = None
         ∨ ∃ slug amount,
             ApiDappTransfer.payload transaction = TokenTransfer slug amount
             ∧ tokensBySlug !! slug = None
             ∧ inheritsMember slug = true).
Proof.
  intros Harr. split; [|split].
  - split.
    + intros (out & h' & Hrun & _).
      destruct (costs_return_or_throw tokensBySlug transactions)
        as [Hall|Hex]; [done|].
      rewrite (sortTransactions_throws TONCOIN h arr transactions tokensBySlug
                 Harr Hex) in Hrun. congruence.
    + by apply sortTransactions_returns.
  - split.
    + intros Hrun.
      destruct (costs_return_or_throw tokensBySlug transactions)
        as [Hall|Hex]; [|done].
      destruct (sortTransactions_returns h arr transactions tokensBySlug
                  Harr Hall) as (out & h' & Hrun' & _). congruence.
    + by apply sortTransactions_throws.
  - intros transaction. apply cost_throws_iff.
Qed.

(** X2. When the native coin has an entry and every token slug resolves,
    two calls in a row on the same array return two different arrays
    holding the same rows; the second call leaves the first result as it
    was. *)
Theorem sortTransactions_twice h arr transactions tokensBySlug ton :
  h !! arr = Some (RequestArray transactions) →
  tokensBySlug !! coinSlug TONCOIN = Some ton →
  (∀ transaction, transaction ∈ transactions →
     slugResolves tokensBySlug transaction = true) →
  ∃ out1 out2 rows h1 h2,
    sortTransactions TONCOIN (Some arr) tokensBySlug h
    = (Return (Some out1), h1) ∧
    sortTransactions TONCOIN (Some arr) tokensBySlug h1
    = (Return (Some out2), h2) ∧
    out1 ≠ out2 ∧
    h1 !! out1 = Some (RowArray rows) ∧
    h2 !! out1 = Some (RowArray rows) ∧
    h2 !! out2 = Some (RowArray rows).
Proof.
  intros Harr Hton Hres.
  destruct (sortTransactions_present TONCOIN h arr transactions tokensBySlug
              ton Harr Hton Hres) as (out1 & Hout1 & Hrun1).
  set (rows := sortedRows TONCOIN ton tokensBySlug transactions) in *.
  set (h1 := <[out1 := RowArray rows]> h) in *.
  assert (Harr1 : h1 !! arr = Some (RequestArray transactions)).
  { unfold h1. rewrite lookup_insert_ne; [done|]. intros ->. congruence. }
  destruct (sortTransactions_present TONCOIN h1 arr transactions tokensBySlug
              ton Harr1 Hton Hres) as (out2 & Hout2 & Hrun2).
  assert (Hfirst : h1 !! out1 = Some (RowArray rows)).
  { unfold h1. apply lookup_insert_eq. }
  assert (Hne : out1 ≠ out2) by (intros ->; congruence).
  eexists out1, out2, rows, h1, _.
  split; [exact Hrun1|]. split; [exact Hrun2|]. split; [exact Hne|].
  split; [exact Hfirst|]. split.
  - by rewrite lookup_insert_ne.
  - apply lookup_insert_eq.
Qed.

(** X3. When the native coin has an entry and every token slug resolves,
    the output rows, without [index] and [sortingCost], are the input
    requests in another order: no request is lost, none appears twice. *)
Theorem sortTransactions_permutation h arr transactions tokensBySlug ton :
  h !! arr = Some (RequestArray transactions) →
  tokensBySlug !! coinSlug TONCOIN = Some ton →
  (∀ transaction, transaction ∈ transactions →
     slugResolves tokensBySlug transaction = true) →
  ∃ out rows h',
    sortTransactions TONCOIN (Some arr) tokensBySlug h
    = (Return (Some out), h') ∧
    h' !! out = Some (RowArray rows) ∧
    rowRequest <$> rows ≡ₚ transactions.
Proof.
  intros Harr Hton Hres.
  destruct (sortTransactions_present TONCOIN h arr transactions tokensBySlug
              ton Harr Hton Hres) as (out & Hout & Hrun).
  eexists out, _, _. split; [exact Hrun|].
  split; [apply lookup_insert_eq|].
  rewrite sortedRows_Permutation, fmap_imap.
  rewrite (imap_ext _ (const id)).
  - by rewrite imap_const, list_fmap_id.
  - intros i transaction _. by destruct transaction.
Qed.

(** X4. When the native coin has an entry, every token slug resolves, the
    costs compare consistently and the requests already come in descending
    order of cost, the rows come out in the order of the input: the row at
    each position has that position as its index. Requests of equal cost
    are a case of it. *)
Theorem sortTransactions_keeps_descending
    h arr transactions tokensBySlug ton :
  h !! arr = Some (RequestArray transactions) →
  tokensBySlug !! coinSlug TONCOIN = Some ton →
  (∀ transaction, transaction ∈ transactions →
     slugResolves tokensBySlug transaction = true) →
  comparable ((λ transaction, valuation TONCOIN transaction ton tokensBySlug)
              <$> transactions) →
  (∀ i j earlier later,
     (i < j)%nat →
     transactions !! i = Some earlier → transactions !! j = Some later →
     nle (valuation TONCOIN later ton tokensBySlug)
         (valuation TONCOIN earlier ton tokensBySlug)) →
  ∃ out rows h',
    sortTransactions TONCOIN (Some arr) tokensBySlug h
    = (Return (Some out), h') ∧
    h' !! out = Some (RowArray rows) ∧
    length rows = length transactions ∧
    ∀ p row, rows !! p = Some row →
      SortedDappTransfer.index row = p ∧
      transactions !! p = Some (rowRequest row).
Proof.
  intros Harr Hton Hres Hcosts Hdesc.
  destruct (sortTransactions_present TONCOIN h arr transactions tokensBySlug
              ton Harr Hton Hres) as (out & Hout & Hrun).
  eexists out, _, _. split; [exact Hrun|].
  split; [apply lookup_insert_eq|].
  split; [apply sortedRows_length|].
  assert (Hsame :
    imap (sortedRow TONCOIN ton tokensBySlug) transactions
    = sortedRows TONCOIN ton tokensBySlug transactions).
  { apply sortedRows_unique; [done|done|].
    apply StronglySorted_of_lookup. intros p q a b Hpq Ha Hb.
    apply list_lookup_imap_Some in Ha as (ta & Hta & ->).
    apply list_lookup_imap_Some in Hb as (tb & Htb & ->).
    apply not_after_precedes; [|done].
    unfold compareRows. simpl. by apply (Hdesc p q). }
  intros p row Hp. rewrite <- Hsame in Hp.
  apply list_lookup_imap_Some in Hp as (t & Ht & ->). simpl.
  split; [done|]. rewrite Ht. by destruct t.
Qed.

(** X5. When the native coin has an entry, every token slug resolves and
    the costs compare consistently, the order of the output is fixed by the
    costs and the original positions alone: an arrangement of the output
    rows in which every earlier row costs more than a later one, or
    compares equal to it and has the smaller index, is the output itself. *)
Theorem sortTransactions_order_unique h arr transactions tokensBySlug ton :
  h !! arr = Some (RequestArray transactions) →
  tokensBySlug !! coinSlug TONCOIN = Some ton →
  (∀ transaction, transaction ∈ transactions →
     slugResolves tokensBySlug transaction = true) →
  comparable ((λ transaction, valuation TONCOIN transaction ton tokensBySlug)
              <$> transactions) →
  ∃ out rows h',
    sortTransactions TONCOIN (Some arr) tokensBySlug h
    = (Return (Some out), h') ∧
    h' !! out = Some (RowArray rows) ∧
    ∀ rows',
      rows' ≡ₚ rows →
      (∀ p q earlier later,
         (p < q)%nat → rows' !! p = Some earlier → rows' !! q = Some later →
         nlt (SortedDappTransfer.sortingCost later)
             (SortedDappTransfer.sortingCost earlier)
         ∨ (signOf (nsub (SortedDappTransfer.sortingCost later)
                         (SortedDappTransfer.sortingCost earlier)) = Zero
            ∧ (SortedDappTransfer.index earlier
               < SortedDappTransfer.index later)%nat)) →
      rows' = rows.
Proof.
  intros Harr Hton Hres Hcosts.
  destruct (sortTransactions_present TONCOIN h arr transactions tokensBySlug
              ton Harr Hton Hres) as (out & Hout & Hrun).
  eexists out, _, _. split; [exact Hrun|].
  split; [apply lookup_insert_eq|].
  intros rows' Hperm Horder.
  apply sortedRows_unique; [done| |].
  - by rewrite Hperm, sortedRows_Permutation.
  - apply StronglySorted_of_lookup. intros p q a b Hpq Ha Hb.
    exact (Horder p q a b Hpq Ha Hb).
Qed.
End SortEffects.

(** ** The rows on screen *)

Section RowsOnScreen.
Context {number : Type} `{JsNumber number}.
Variable TONCOIN : NativeCoin.
Variable toDecimal : Z → option Z → string.
Variable formatCurrency : string → string → string.
Variable lang : string → list (string * string) → string.
Variable shortenAddress : string → string.
Implicit Types (h : heap number) (arr out : loc).
Implicit Types (tokensBySlug : gmap string (ApiTokenWithPrice.t number)).
Implicit Types (ton : ApiTokenWithPrice.t number).
Implicit Types (transactions : list ApiDappTransfer.t).

Abbreviation component :=
  (DappTransferInitial TONCOIN toDecimal formatCurrency lang shortenAddress).
Abbreviation rowElement :=
  (renderTransactionRow TONCOIN toDecimal formatCurrency lang shortenAddress).

(** In list mode, with the native entry present and every token slug
    resolving, the component shows the rendered sorted rows. *)
Lemma DappTransferInitial_list
    h current arr transactions tokensBySlug ton :
  isSingleTransaction current h = (Return false, h) →
  h !! arr = Some (RequestArray transactions) →
  tokensBySlug !! coinSlug TONCOIN = Some ton →
  (∀ transaction, transaction ∈ transactions →
     slugResolves tokensBySlug transaction = true) →
  ∃ h',
    component tokensBySlug current (Some arr) h
    = (Return (Some (TransactionListElement (Some
         (rowElement tokensBySlug
          <$> sortedRows TONCOIN ton tokensBySlug transactions)))), h').
Proof.
  intros Hlist Harr Hton Hres.
  destruct (sortTransactions_present TONCOIN h arr transactions tokensBySlug
              ton Harr Hton Hres) as (out & Hout & Hrun).
  eexists. unfold DappTransferInitial, mbind, js_bind.
  rewrite Hlist, Hrun.
  unfold renderTransactions, mbind, js_bind, renderTransactionRows.
  by rewrite lookup_insert_eq.
Qed.

(** X6. In list mode (the [transactions] property is not an array of
    exactly one request), with the native coin in the price table and every
    token slug resolving, every row element on screen opens the transfer it
    shows: the index its click dispatches with [showDappTransfer] is a
    position of the input, and the element is the rendering of the row made
    from the request at that position, with that request's address and scam
    mark. There are as many elements as requests. *)
Theorem DappTransferInitial_click_target
    h current arr transactions tokensBySlug ton :
  isSingleTransaction current h = (Return false, h) →
  h !! arr = Some (RequestArray transactions) →
  tokensBySlug !! coinSlug TONCOIN = Some ton →
  (∀ transaction, transaction ∈ transactions →
     slugResolves tokensBySlug transaction = true) →
  ∃ elements h',
    component tokensBySlug current (Some arr) h
    = (Return (Some (TransactionListElement (Some elements))), h') ∧
    length elements = length transactions ∧
    ∀ p element, elements !! p = Some element →
      ∃ i transaction row,
        rowOnClick element = showDappTransfer i ∧
        transactions !! i = Some transaction ∧
        toSortedRow TONCOIN tokensBySlug transaction i = Return row ∧
        element = rowElement tokensBySlug row ∧
        rowAddressText element
        = lang "$transaction_to"
            [("address",
              shortenAddress (ApiDappTransfer.displayedToAddress transaction))] ∧
        rowAmountScam element = ApiDappTransfer.isScam transaction ∧
        rowScamImage element
        = (if ApiDappTransfer.isScam transaction then Some (lang "Scam" [])
           else None).
Proof.
  intros Hlist Harr Hton Hres.
  destruct (DappTransferInitial_list h current arr transactions tokensBySlug
              ton Hlist Harr Hton Hres) as (h' & Hrun).
  eexists _, h'. split; [exact Hrun|].
  split; [by rewrite length_fmap, sortedRows_length|].
  intros p element Hp.
  apply list_lookup_fmap_Some in Hp as (row & -> & Hrow).
  destruct (sortedRows_lookup TONCOIN _ _ _ _ _ Hrow) as (t & Ht & Heq).
  exists (SortedDappTransfer.index row), t, row.
  split; [done|]. split; [done|].
  split.
  { rewrite (toSortedRow_present TONCOIN _ ton), <- Heq; [done..|].
    apply Hres. by eapply list_elem_of_lookup_2. }
  split; [done|]. by rewrite Heq.
Qed.

(** X7. In list mode, with the native coin in the price table and every
    token slug resolving, the keys of the row elements are the positions of
    the input, each exactly once: no two elements on screen share a key. *)
Theorem DappTransferInitial_keys
    h current arr transactions tokensBySlug ton :
  isSingleTransaction current h = (Return false, h) →
  h !! arr = Some (RequestArray transactions) →
  tokensBySlug !! coinSlug TONCOIN = Some ton →
  (∀ transaction, transaction ∈ transactions →
     slugResolves tokensBySlug transaction = true) →
  ∃ elements h',
    component tokensBySlug current (Some arr) h
    = (Return (Some (TransactionListElement (Some elements))), h') ∧
    rowKey <$> elements ≡ₚ seq 0 (length transactions) ∧
    NoDup (rowKey <$> elements).
Proof.
  intros Hlist Harr Hton Hres.
  destruct (DappTransferInitial_list h current arr transactions tokensBySlug
              ton Hlist Harr Hton Hres) as (h' & Hrun).
  eexists _, h'. split; [exact Hrun|].
  assert (Hkeys :
    rowKey <$> (rowElement tokensBySlug
                <$> sortedRows TONCOIN ton tokensBySlug transactions)
    ≡ₚ seq 0 (length transactions)).
  { rewrite <- list_fmap_compose.
    rewrite (list_fmap_ext _ SortedDappTransfer.index) by done.
    apply sortedRows_index. }
  split; [exact Hkeys|]. rewrite Hkeys. apply NoDup_seq.
Qed.

(** X14. When the property and the rendered array are the same array of
    exactly one request, the component shows the [DappTransfer] element of
    that request and no row. The request is priced all the same: when its
    cost throws, the render throws. *)
Theorem DappTransferInitial_single h arr transaction tokensBySlug :
  h !! arr = Some (RequestArray [transaction]) →
  match getTransactionCostForSorting TONCOIN transaction tokensBySlug with
  | Return _ =>
    ∃ h',
      component tokensBySlug (Some arr) (Some arr) h
      = (Return (Some (DappTransferElement (Some transaction))), h') ∧
      h' !! arr = Some (RequestArray [transaction])
  | Throw e => component tokensBySlug (Some arr) (Some arr) h = (Throw e, h)
  end.
Proof.
  intros Harr.
  unfold DappTransferInitial, mbind, js_bind, isSingleTransaction.
  rewrite Harr. simpl.
  unfold sortTransactions, mbind, js_bind, array_map. rewrite Harr. simpl.
  unfold toSortedRow.
  destruct (getTransactionCostForSorting TONCOIN transaction tokensBySlug)
    as [cost|e]; simpl; [|done].
  unfold array_sort. rewrite lookup_insert_eq. simpl.
  assert (Hne : fresh (dom h) ≠ arr).
  { intros Heq. pose proof (fresh_unused h) as Hfresh. congruence. }
  unfold renderTransaction.
  rewrite insert_insert_eq, lookup_insert_ne, Harr by done.
  eexists. split; [done|]. by rewrite lookup_insert_ne.
Qed.
End RowsOnScreen.

(** ** The build platform *)

(** The names of the platforms are pairwise different: the platform can be
    read back from the string the source returns. *)
Lemma buildPlatformName_inj (p q : BuildPlatform) :
  buildPlatformName p = buildPlatformName q → p = q.
Proof. destruct p, q; simpl; intros Heq; done || discriminate Heq. Qed.

(** Case analysis on the flags the platform depends on. *)
Ltac flag_cases flags :=
  unfold noExtensionFlag, noDeviceFlag, getBuildPlatform;
  destruct flags as [air adirect cap ext ff opera packaged android electron ios];
  cbn [IS_AIR_APP IS_ANDROID_DIRECT IS_CAPACITOR IS_EXTENSION
       IS_FIREFOX_EXTENSION IS_OPERA_EXTENSION IS_PACKAGED_ELECTRON
       IS_ANDROID IS_ELECTRON IS_IOS];
  destruct ff, opera, ext, cap, air, ios, adirect, android, electron;
  simpl; intuition congruence.

(** X8. An extension flag decides the platform whatever the other flags
    are, the Firefox flag before the Opera flag and both before the general
    one; and no extension platform comes without its flag. *)
Theorem getBuildPlatform_extension (flags : Flags) :
  (getBuildPlatform flags = FirefoxExtension
   ↔ IS_FIREFOX_EXTENSION flags = true)
  ∧ (getBuildPlatform flags = OperaExtension
     ↔ IS_FIREFOX_EXTENSION flags = false ∧ IS_OPERA_EXTENSION flags = true)
  ∧ (getBuildPlatform flags = Extension
     ↔ IS_FIREFOX_EXTENSION flags = false ∧ IS_OPERA_EXTENSION flags = false
       ∧ IS_EXTENSION flags = true).
Proof. flag_cases flags. Qed.

(** X9. The iOS platforms: with the air flag, the iOS flag wins over the
    Android flags; without it, it gives [ios] only when neither Android flag
    is set. Both need Capacitor and no extension flag. *)
Theorem getBuildPlatform_ios (flags : Flags) :
  (getBuildPlatform flags = IosAir
   ↔ noExtensionFlag flags ∧ IS_CAPACITOR flags = true
     ∧ IS_AIR_APP flags = true ∧ IS_IOS flags = true)
  ∧ (getBuildPlatform flags = Ios
     ↔ noExtensionFlag flags ∧ IS_CAPACITOR flags = true
       ∧ IS_AIR_APP flags = false ∧ IS_IOS flags = true
       ∧ IS_ANDROID_DIRECT flags = false ∧ IS_ANDROID flags = false).
Proof. flag_cases flags. Qed.

(** X10. The Android platforms: the direct flag alone is enough for a
    direct platform and wins over the plain Android flag; the air variants
    need the air flag and no iOS flag, the others need the air flag off. *)
Theorem getBuildPlatform_android (flags : Flags) :
  (getBuildPlatform flags = AndroidAirDirect
   ↔ noExtensionFlag flags ∧ IS_CAPACITOR flags = true
     ∧ IS_AIR_APP flags = true ∧ IS_IOS flags = false
     ∧ IS_ANDROID_DIRECT flags = true)
  ∧ (getBuildPlatform flags = AndroidAir
     ↔ noExtensionFlag flags ∧ IS_CAPACITOR flags = true
       ∧ IS_AIR_APP flags = true ∧ IS_IOS flags = false
       ∧ IS_ANDROID_DIRECT flags = false ∧ IS_ANDROID flags = true)
  ∧ (getBuildPlatform flags = AndroidDirect
     ↔ noExtensionFlag flags ∧ IS_CAPACITOR flags = true
       ∧ IS_AIR_APP flags = false ∧ IS_ANDROID_DIRECT flags = true)
  ∧ (getBuildPlatform flags = Android
     ↔ noExtensionFlag flags ∧ IS_CAPACITOR flags = true
       ∧ IS_AIR_APP flags = false ∧ IS_ANDROID_DIRECT flags = false
       ∧ IS_ANDROID flags = true).
Proof. flag_cases flags. Qed.

(** X11. The platform is [electron] or [web] exactly when no extension
    flag is set and Capacitor is off or comes without any device flag; the
    Electron flag then tells the two apart. A Capacitor build without
    device flag is not a mobile platform. *)
Theorem getBuildPlatform_desktop (flags : Flags) :
  (getBuildPlatform flags = Electron
   ↔ noExtensionFlag flags ∧ IS_ELECTRON flags = true
     ∧ (IS_CAPACITOR flags = true → noDeviceFlag flags))
  ∧ (getBuildPlatform flags = Web
     ↔ noExtensionFlag flags ∧ IS_ELECTRON flags = false
       ∧ (IS_CAPACITOR flags = true → noDeviceFlag flags)).
Proof. flag_cases flags. Qed.

(** X12. Off Capacitor the object of [getFlagsValue] tells the platform:
    two environments with the same object have the same platform. On
    Capacitor it does not, the device flags [IS_IOS] and [IS_ANDROID] not
    being part of it. *)
Theorem getFlagsValue_platform :
  (∀ flags1 flags2,
     IS_CAPACITOR flags1 = false →
     getFlagsValue flags1 = getFlagsValue flags2 →
     getBuildPlatform flags1 = getBuildPlatform flags2)
  ∧ (∃ flags1 flags2,
       getFlagsValue flags1 = getFlagsValue flags2
       ∧ getBuildPlatform flags1 ≠ getBuildPlatform flags2).
Proof.
  split.
  - intros flags1 flags2 Hcap Hvalue.
    destruct flags1 as [air1 adirect1 cap1 ext1 ff1 opera1 packaged1 android1
                        electron1 ios1].
    destruct flags2 as [air2 adirect2 cap2 ext2 ff2 opera2 packaged2 android2
                        electron2 ios2].
    simpl in Hcap. injection Hvalue as -> -> -> -> -> -> -> ->. subst cap2.
    unfold getBuildPlatform. simpl.
    by destruct ff2, opera2, ext2.
  - exists androidFlags, iosFlags. split; [done|discriminate].
Qed.

(** X13. Every platform of the type is the result for some flags. *)
Theorem getBuildPlatform_surjective (platform : BuildPlatform) :
  ∃ flags, getBuildPlatform flags = platform.
Proof.
  destruct platform.
  - by exists (Build_Flags false false false false false false false false false false).
  - by exists (Build_Flags false false false true false false false false false false).
  - by exists (Build_Flags false false false false true false false false false false).
  - by exists (Build_Flags false false false false false true false false false false).
  - by exists electronFlags.
  - by exists androidFlags.
  - by exists (Build_Flags true false true false false false false true false false).
  - by exists (Build_Flags true true true false false false false false false false).
  - by exists (Build_Flags false true true false false false false false false false).
  - by exists iosFlags.
  - by exists iosAirFlags.
Qed.

(** ** The sample data, run again *)

Lemma sortTransactions_outcome_witness :
  sortTransactions TON (Some 1%positive) pricesWithoutNative sampleHeap
  = (Throw TypeError, sampleHeap)
  ∧ ∃ out h',
      sortTransactions TON (Some 1%positive) samplePrices sampleHeap
      = (Return (Some out), h') ∧ sampleHeap !! out = None.
Proof.
  split.
  - apply (sortTransactions_outcome TON sampleHeap 1%positive sampleTransfers
             pricesWithoutNative eq_refl).
    left. reflexivity.
  - apply (sortTransactions_outcome TON sampleHeap 1%positive sampleTransfers
             samplePrices eq_refl).
    repeat constructor; by eexists.
Defined.

Lemma sortTransactions_twice_witness :
  ∃ out1 out2 rows h1 h2,
    sortTransactions TON (Some 1%positive) samplePrices sampleHeap
    = (Return (Some out1), h1) ∧
    sortTransactions TON (Some 1%positive) samplePrices h1
    = (Return (Some out2), h2) ∧
    out1 ≠ out2 ∧
    h1 !! out1 = Some (RowArray rows) ∧
    h2 !! out1 = Some (RowArray rows) ∧
    h2 !! out2 = Some (RowArray rows).
Proof.
  exact (sortTransactions_twice TON sampleHeap 1%positive sampleTransfers
           samplePrices sampleTon eq_refl eq_refl sampleTransfers_resolve).
Defined.

Lemma sortTransactions_permutation_witness :
  ∃ out rows h',
    sortTransactions TON (Some 1%positive) samplePrices sampleHeap
    = (Return (Some out), h') ∧
    h' !! out = Some (RowArray rows) ∧
    rowRequest <$> rows ≡ₚ sampleTransfers.
Proof.
  exact (sortTransactions_permutation TON sampleHeap 1%positive sampleTransfers
           samplePrices sampleTon eq_refl eq_refl sampleTransfers_resolve).
Defined.

Lemma descendingTransfers_resolve transaction :
  transaction ∈ descendingTransfers →
  slugResolves floatPrices transaction = true.
Proof.
  revert transaction. apply Forall_forall, (bool_decide_unpack _).
  vm_compute. exact I.
Qed.

Lemma descendingTransfers_descending i j earlier later :
  (i < j)%nat →
  descendingTransfers !! i = Some earlier →
  descendingTransfers !! j = Some later →
  nle (valuation TON later floatTon floatPrices)
      (valuation TON earlier floatTon floatPrices).
Proof.
  intros Hij Hi Hj.
  destruct i as [|[|[|i]]]; destruct j as [|[|[|j]]];
    try lia; simplify_eq/=; by vm_compute.
Qed.

Lemma sortTransactions_keeps_descending_witness :
  ∃ out rows h',
    sortTransactions TON (Some 1%positive) floatPrices descendingHeap
    = (Return (Some out), h') ∧
    h' !! out = Some (RowArray rows) ∧
    ∀ p row, rows !! p = Some row →
      SortedDappTransfer.index row = p ∧
      descendingTransfers !! p = Some (rowRequest row).
Proof.
  destruct (sortTransactions_keeps_descending TON descendingHeap 1%positive
              descendingTransfers floatPrices floatTon)
    as (out & rows & h' & Hrun & Hout & _ & Hrows).
  - reflexivity.
  - reflexivity.
  - exact descendingTransfers_resolve.
  - apply (bool_decide_unpack _). vm_compute. exact I.
  - exact descendingTransfers_descending.
  - by exists out, rows, h'.
Defined.

Lemma sortTransactions_order_unique_witness :
  ∃ out rows h',
    sortTransactions TON (Some 1%positive) floatPrices floatHeap
    = (Return (Some out), h') ∧
    h' !! out = Some (RowArray rows) ∧
    ∀ rows',
      rows' ≡ₚ rows →
      (∀ p q earlier later,
         (p < q)%nat → rows' !! p = Some earlier → rows' !! q = Some later →
         nlt (SortedDappTransfer.sortingCost later)
             (SortedDappTransfer.sortingCost earlier)
         ∨ (signOf (nsub (SortedDappTransfer.sortingCost later)
                         (SortedDappTransfer.sortingCost earlier)) = Zero
            ∧ (SortedDappTransfer.index earlier
               < SortedDappTransfer.index later)%nat)) →
      rows' = rows.
Proof.
  apply (sortTransactions_order_unique TON floatHeap 1%positive sampleTransfers
           floatPrices floatTon).
  - reflexivity.
  - reflexivity.
  - exact floatTransfers_resolve.
  - apply (bool_decide_unpack _). vm_compute. exact I.
Defined.

Lemma DappTransferInitial_click_target_witness :
  ∃ elements h',
    DappTransferInitial TON sampleToDecimal sampleFormatCurrency sampleLang
      sampleShortenAddress samplePrices (Some 1%positive) (Some 1%positive)
      sampleHeap
    = (Return (Some (TransactionListElement (Some elements))), h') ∧
    length elements = 5%nat ∧
    ∀ p element, elements !! p = Some element →
      ∃ i transaction,
        rowOnClick element = showDappTransfer i ∧
        sampleTransfers !! i = Some transaction.
Proof.
  destruct (DappTransferInitial_click_target TON sampleToDecimal
              sampleFormatCurrency sampleLang sampleShortenAddress
              sampleHeap (Some 1%positive) 1%positive sampleTransfers
              samplePrices sampleTon
              eq_refl eq_refl eq_refl sampleTransfers_resolve)
    as (elements & h' & Hrun & Hlen & Helements).
  exists elements, h'. split; [exact Hrun|]. split; [exact Hlen|].
  intros p element Hp.
  destruct (Helements p element Hp) as (i & t & row & Hclick & Ht & _).
  by exists i, t.
Defined.

Lemma DappTransferInitial_keys_witness :
  ∃ elements h',
    DappTransferInitial TON sampleToDecimal sampleFormatCurrency sampleLang
      sampleShortenAddress samplePrices (Some 1%positive) (Some 1%positive)
      sampleHeap
    = (Return (Some (TransactionListElement (Some elements))), h') ∧
    rowKey <$> elements ≡ₚ seq 0 5 ∧
    NoDup (rowKey <$> elements).
Proof.
  exact (DappTransferInitial_keys TON sampleToDecimal sampleFormatCurrency
           sampleLang sampleShortenAddress sampleHeap (Some 1%positive)
           1%positive sampleTransfers samplePrices sampleTon
           eq_refl eq_refl eq_refl sampleTransfers_resolve).
Defined.

Lemma DappTransferInitial_single_witness :
  ∃ h',
    DappTransferInitial TON sampleToDecimal sampleFormatCurrency sampleLang
      sampleShortenAddress samplePrices (Some 1%positive) (Some 1%positive)
      singleHeap
    = (Return (Some (DappTransferElement (Some tokenTransfer))), h') ∧
    h' !! 1%positive = Some (RequestArray [tokenTransfer]).
Proof.
  exact (DappTransferInitial_single TON sampleToDecimal sampleFormatCurrency
           sampleLang sampleShortenAddress singleHeap 1%positive tokenTransfer
           samplePrices eq_refl).
Defined.

(** The rows of the sample requests as they stand on screen: key, and the
    amount text. *)
Example sample_screen :
  match fst (DappTransferInitial TON sampleToDecimal sampleFormatCurrency
               sampleLang sampleShortenAddress samplePrices (Some 1%positive)
               (Some 1%positive) sampleHeap) with
  | Return (Some (TransactionListElement (Some elements))) =>
    Some ((λ element, (rowKey element, rowAmountText element)) <$> elements)
  | _ => None
  end
  = Some
      [(2%nat, "1 NFT");
       (0%nat, "100000000000e-9 TON");
       (1%nat, "5000e-2 X + 10000000e-9 TON");
       (4%nat, "5000e-2 X + 10000000e-9 TON");
       (3%nat, "0e-9 TON")].
Proof. by vm_compute. Qed.

(** One request, with a token slug that names an inherited member: nothing
    is shown, the render throws. *)
Example single_screen_throws :
  fst (DappTransferInitial TON sampleToDecimal sampleFormatCurrency
         sampleLang sampleShortenAddress samplePrices (Some 1%positive)
         (Some 1%positive)
         ({[ 1%positive := RequestArray [toStringTransfer] ]} : heap Q))
  = Throw TypeError.
Proof. by vm_compute. Qed.
